(** * One-off map/reduce jobs for explorations

    A shallow embedding of [core/domain/exp_jobs_one_off.py].  Every job class
    of the module becomes a Rocq [Module] holding its [map] and [reduce].
    A generator body is a computation in the [Run] monad: it produces a trace
    of observable events (the pairs it yields, what it logs, the calls that
    write to the datastore) and ends either normally or with a Python
    exception that escaped the body.

    The collaborators the Python module imports ([exp_fetchers],
    [exp_services], [rights_manager], [html_validation_service], [feconf],
    [ast], ...) are not part of the module; they are gathered in the record
    [Env] and every job takes it as its first argument. *)

From Stdlib Require Import ZArith String List Lia Permutation Sorted.
From stdpp Require Import base list strings pretty.
From Equations Require Import Equations.

Import ListNotations.
Local Open Scope string_scope.
Local Open Scope Z_scope.

(** ** Python values and exceptions *)

(** The values that travel through [yield] and come back from
    [ast.literal_eval]. *)
#[local] Set Warnings "-register-all".
Inductive PyVal : Type :=
| PNone
| PBool (b : bool)
| PInt (z : Z)
| PStr (s : string)
| PList (l : list PyVal)
| PTuple (l : list PyVal)
| PDict (kv : list (PyVal * PyVal)).
#[local] Set Warnings "register-all".

(** Exceptions, by class.  [except Exception] catches all of them,
    [except utils.ValidationError] only the first. *)
Inductive Exn : Type :=
| ValidationError (msg : string)
| IndexError (msg : string)
| KeyError (msg : string)
| TypeError (msg : string)
| ValueError (msg : string)
| AttributeError (msg : string)
| UnicodeDecodeError (msg : string)
| OtherException (msg : string).

(** [str(e)], as used by ['%s' % e] and [convert_to_bytes(e)]. *)
Definition exn_str (e : Exn) : string :=
  match e with
  | ValidationError m | IndexError m | KeyError m | TypeError m
  | ValueError m | AttributeError m | UnicodeDecodeError m
  | OtherException m => m
  end.

Definition is_ValidationError (e : Exn) : bool :=
  match e with ValidationError _ => true | _ => false end.

Inductive Result (A : Type) : Type :=
| Ok (a : A)
| Raise (e : Exn).
Arguments Ok {A} a.
Arguments Raise {A} e.

(** ** Domain objects *)

(** [exp_models.ExplorationModel]: the fields the jobs read. *)
Record ExplorationModel := {
  em_id : string;
  em_deleted : bool;
  em_states_schema_version : Z;
  em_states : PyVal;
  em_title : string
}.

(** [exp_models.ExplorationRightsSnapshotContentModel]. [rs_content] is the
    [content] dict, [rs_unversioned_instance_id] what
    [get_unversioned_instance_id()] returns. Like every stored model it
    carries the base [deleted] flag. *)
Record ExplorationRightsSnapshotContentModel := {
  rs_unversioned_instance_id : string;
  rs_deleted : bool;
  rs_content : list (string * PyVal);
  rs_created_on : Z
}.

(** [exp_models.ExplorationMathRichTextInfoModel]. *)
Record ExplorationMathRichTextInfoModel := {
  mi_id : string;
  mi_deleted : bool
}.

(** A state of a loaded exploration: [get_all_html_content_strings()] and
    [interaction.hints]. *)
Record State := {
  st_html_content_strings : list string;
  st_hints : list PyVal
}.

(** A loaded [exp_domain.Exploration]: [states.items()] and
    [get_all_html_content_strings()]. *)
Record Exploration := {
  ex_states : list (string * State);
  ex_all_html_content_strings : list string
}.

(** What [rights_manager.get_exploration_rights] returns. *)
Record ActivityRights := {
  ar_status : string;
  ar_viewable_if_private : bool
}.

(** The dict handed to [Exploration.update_states_from_model], which updates
    it in place. *)
Record VersionedStates := {
  vs_states_schema_version : Z;
  vs_states : PyVal
}.

(** [exp_domain.ExplorationChange({...})] of the migration command. *)
Record ExplorationChange := {
  ec_cmd : string;
  ec_from_version : string;
  ec_to_version : string
}.

(** ** Observable events of a map or reduce step

    [Yield] is a pair handed to the engine; [LogError] and [LogException]
    are [logging.error] and [logging.exception]; the other events are calls
    that change the datastore, recorded when the call is made:
    [item.delete()], [exp_services.update_exploration],
    [rights_manager.update_activity_first_published_msec] and
    [exp_services.save_multi_exploration_math_rich_text_info_model]. *)

Inductive Event : Type :=
| Yield (key : string) (value : PyVal)
| LogError (msg : string)
| LogException (msg : string)
| ModelDelete (model_id : string)
| UpdateExploration (committer exp_id : string)
    (change_list : list ExplorationChange) (commit_message : string)
| UpdateFirstPublishedMsec (activity_type exp_id : string) (msec : PyVal)
| SaveMultiMathRichTextInfo (infos : list (PyVal * PyVal)).

(** A write to the datastore that goes through the versioned-write API. *)
Definition is_versioned_write (ev : Event) : bool :=
  match ev with UpdateExploration _ _ _ _ => true | _ => false end.

(** A deletion issued on a model instance directly. *)
Definition is_direct_delete (ev : Event) : bool :=
  match ev with ModelDelete _ => true | _ => false end.

(** Any event that changes the datastore. *)
Definition is_store_write (ev : Event) : bool :=
  match ev with
  | ModelDelete _ | UpdateExploration _ _ _ _
  | UpdateFirstPublishedMsec _ _ _ | SaveMultiMathRichTextInfo _ => true
  | _ => false
  end.

(** ** The monad of generator bodies *)

Record Run (A : Type) := MkRun {
  trace : list Event;
  outcome : Result A
}.
Arguments MkRun {A} trace outcome.
Arguments trace {A} r.
Arguments outcome {A} r.

Definition ret {A} (a : A) : Run A := MkRun [] (Ok a).

Definition raise {A} (e : Exn) : Run A := MkRun [] (Raise e).

Definition bind {A B} (m : Run A) (f : A -> Run B) : Run B :=
  match outcome m with
  | Ok a => MkRun (trace m ++ trace (f a)) (outcome (f a))
  | Raise e => MkRun (trace m) (Raise e)
  end.

Definition emit (ev : Event) : Run unit := MkRun [ev] (Ok tt).

Definition lift {A} (r : Result A) : Run A := MkRun [] r.

(** [try: body  except <class> as e: handler e]; [catches] selects the
    exception classes of the [except] clause. *)
Definition try_except {A} (catches : Exn -> bool) (body : Run A)
    (handler : Exn -> Run A) : Run A :=
  match outcome body with
  | Ok a => body
  | Raise e =>
      if catches e
      then MkRun (trace body ++ trace (handler e)) (outcome (handler e))
      else body
  end.

(** [m ;; k]: run [m], then [k] unless [m] raised. *)
Definition and_then {A} (m : Run unit) (k : Run A) : Run A :=
  bind m (fun _ => k).

Notation "'let*' x ':=' m 'in' k" := (bind m (fun x => k))
  (at level 10, x pattern, m at level 100, k at level 200).
Notation "m ;; k" := (and_then m k)
  (at level 100, k at level 200, right associativity).

Definition yield_ (key : string) (value : PyVal) : Run unit :=
  emit (Yield key value).

(** [for x in xs: body x] *)
Fixpoint for_each {A} (xs : list A) (body : A -> Run unit) : Run unit :=
  match xs with
  | [] => ret tt
  | x :: xs' => body x ;; for_each xs' body
  end.

(** [[f x for x in xs]] for an [f] that may raise. *)
Fixpoint map_result {A B} (f : A -> Result B) (xs : list A)
    : Result (list B) :=
  match xs with
  | [] => Ok []
  | x :: xs' =>
      match f x with
      | Raise e => Raise e
      | Ok y =>
          match map_result f xs' with
          | Raise e => Raise e
          | Ok ys => Ok (y :: ys)
          end
      end
  end.

(** The pairs a step yielded, in order. *)
Definition emissions {A} (r : Run A) : list (string * PyVal) :=
  omap (fun ev => match ev with Yield k v => Some (k, v) | _ => None end)
       (trace r).

Definition store_writes {A} (r : Run A) : list Event :=
  List.filter is_store_write (trace r).

(** ** Python built-ins used by the jobs *)

(** ['sep'.join(strs)] with the empty separator. *)
Definition join (strs : list string) : string := String.concat "" strs.

(** [len(xs)] of a Python list held as a Rocq list. *)
Definition len {A} (xs : list A) : Z := Z.of_nat (length xs).

(** Iterating a value: lists and tuples give their items, a string its
    characters, a dict its keys; anything else is not iterable. *)
Definition py_iter (v : PyVal) : Result (list PyVal) :=
  match v with
  | PList l | PTuple l => Ok l
  | PStr s => Ok (List.map (fun c => PStr (String c EmptyString))
                           (list_ascii_of_string s))
  | PDict kv => Ok (List.map fst kv)
  | PNone | PBool _ | PInt _ => Raise (TypeError "object is not iterable")
  end.

(** [len(v)] of a dynamically typed value. *)
Definition py_len (v : PyVal) : Result Z :=
  match v with
  | PList l | PTuple l => Ok (len l)
  | PStr s => Ok (Z.of_nat (String.length s))
  | PDict kv => Ok (len kv)
  | PNone | PBool _ | PInt _ => Raise (TypeError "object has no len()")
  end.

(** [a, b = v] *)
Definition unpack2 (v : PyVal) : Result (PyVal * PyVal) :=
  match py_iter v with
  | Raise e => Raise e
  | Ok [a; b] => Ok (a, b)
  | Ok _ => Raise (ValueError "wrong number of values to unpack")
  end.

(** Values that can be dict keys. *)
Fixpoint hashable (v : PyVal) : bool :=
  match v with
  | PNone | PBool _ | PInt _ | PStr _ => true
  | PTuple l => forallb hashable l
  | PList _ | PDict _ => false
  end.

(** [a == b] on hashable values ([True == 1] and [False == 0] as in
    Python). *)
Fixpoint key_eqb (a b : PyVal) {struct a} : bool :=
  match a, b with
  | PNone, PNone => true
  | PBool x, PBool y => Bool.eqb x y
  | PBool x, PInt y | PInt y, PBool x => (if x then 1 else 0) =? y
  | PInt x, PInt y => x =? y
  | PStr x, PStr y => String.eqb x y
  | PTuple xs, PTuple ys =>
      (fix go (xs ys : list PyVal) {struct xs} : bool :=
         match xs, ys with
         | [], [] => true
         | x :: xs', y :: ys' => key_eqb x y && go xs' ys'
         | _, _ => false
         end) xs ys
  | _, _ => false
  end.

(** [d[k]] *)
Fixpoint dict_get (kv : list (PyVal * PyVal)) (k : PyVal) : option PyVal :=
  match kv with
  | [] => None
  | (k', v) :: kv' => if key_eqb k' k then Some v else dict_get kv' k
  end.

(** [del d[k]] *)
Fixpoint dict_del (kv : list (PyVal * PyVal)) (k : PyVal)
    : list (PyVal * PyVal) :=
  match kv with
  | [] => []
  | (k', v) :: kv' =>
      if key_eqb k' k then kv' else (k', v) :: dict_del kv' k
  end.

(** [d[k] = v]: an existing key keeps its place. *)
Fixpoint dict_set (kv : list (PyVal * PyVal)) (k v : PyVal)
    : list (PyVal * PyVal) :=
  match kv with
  | [] => [(k, v)]
  | (k', v') :: kv' =>
      if key_eqb k' k then (k', v) :: kv' else (k', v') :: dict_set kv' k v
  end.

(** [v[k]] for a value that should be a dict. *)
Definition py_getitem (v k : PyVal) : Result PyVal :=
  match v with
  | PDict kv =>
      match dict_get kv k with
      | Some x => Ok x
      | None => Raise (KeyError "key")
      end
  | _ => Raise (TypeError "indices must be integers")
  end.

(** [del v[k]] for a value that should be a dict. *)
Definition py_delitem (v k : PyVal) : Result PyVal :=
  match v with
  | PDict kv =>
      match dict_get kv k with
      | Some _ => Ok (PDict (dict_del kv k))
      | None => Raise (KeyError "key")
      end
  | _ => Raise (TypeError "object does not support item deletion")
  end.

(** The number that [n + v] adds to an integer [n]: [v] must be an integer
    or a boolean. *)
Definition as_int (v : PyVal) : Result Z :=
  match v with
  | PInt n => Ok n
  | PBool b => Ok (if b then 1 else 0)
  | _ => Raise (TypeError "unsupported operand type(s) for +")
  end.

(** [xs[i]] on a list, for an index that is not negative. *)
Definition list_getitem {A} (xs : list A) (i : nat) : Result A :=
  match xs !! i with
  | Some x => Ok x
  | None => Raise (IndexError "list index out of range")
  end.

(** [needle in s] on strings. *)
Fixpoint contains (needle s : string) : bool :=
  String.prefix needle s ||
  match s with
  | EmptyString => false
  | String _ s' => contains needle s'
  end.

(** [s.find(needle)]: the first index, or -1. *)
Fixpoint find_from (needle s : string) (i : Z) : Z :=
  if String.prefix needle s then i
  else match s with
       | EmptyString => -1
       | String _ s' => find_from needle s' (i + 1)
       end.

Definition find (s needle : string) : Z := find_from needle s 0.

(** [s[i:]] and [s[:j]]; a negative bound counts from the end. *)
Definition slice_bound (s : string) (i : Z) : nat :=
  let n := Z.of_nat (String.length s) in
  if i <? 0 then Z.to_nat (Z.max 0 (n + i)) else Z.to_nat (Z.min n i).

Definition slice_from (s : string) (i : Z) : string :=
  let b := slice_bound s i in
  String.substring b (String.length s - b) s.

Definition slice_to (s : string) (j : Z) : string :=
  String.substring 0 (slice_bound s j) s.

(** [python_utils.UNICODE(n)] and ['%d' % n] for an integer. *)
Definition UNICODE (n : Z) : string := pretty n.

(** *** Text and bytes

    The module is Python 2 code: it needs the [__future__] imports, and
    with [unicode_literals] its format strings are unicode.  Strings of the
    model are byte sequences, the UTF-8 form of the text. *)

(** All bytes are below 128. *)
Definition is_ascii (s : string) : bool :=
  forallb (fun c => (Ascii.nat_of_ascii c <? 128)%nat)
          (list_ascii_of_string s).

(** What ['%s' % b] inserts for a byte string [b] (the result of
    [.encode('utf-8')]) when the format string is unicode: the bytes are
    decoded with the ascii codec, which raises on a byte above 127. *)
Definition format_bytes (b : string) : Result string :=
  if is_ascii b then Ok b
  else Raise (UnicodeDecodeError
                "'ascii' codec can't decode byte: ordinal not in range(128)").

(** *** Order, [min], [sort] and set union

    [py_cmp] is the order of Python on the values where Python 2 and
    Python 3 agree: numbers with numbers, strings with strings, and tuples
    with tuples or lists with lists, item by item.  For any other pair the
    answer is [None]: Python 3 raises there and Python 2 orders by type
    name. *)

Definition lex_cmp {A} (cmp : A -> A -> option comparison)
    : list A -> list A -> option comparison :=
  fix go (xs ys : list A) {struct xs} : option comparison :=
    match xs, ys with
    | [], [] => Some Eq
    | [], _ :: _ => Some Lt
    | _ :: _, [] => Some Gt
    | x :: xs', y :: ys' =>
        match cmp x y with
        | Some Eq => go xs' ys'
        | other => other
        end
    end.

Fixpoint py_cmp (a b : PyVal) {struct a} : option comparison :=
  match a, b with
  | PInt x, PInt y => Some (x ?= y)
  | PInt x, PBool y => Some (x ?= Z.b2z y)
  | PBool x, PInt y => Some (Z.b2z x ?= y)
  | PBool x, PBool y => Some (Z.b2z x ?= Z.b2z y)
  | PStr x, PStr y => Some (String.compare x y)
  | PTuple xs, PTuple ys => lex_cmp py_cmp xs ys
  | PList xs, PList ys => lex_cmp py_cmp xs ys
  | _, _ => None
  end.

(** [a <= b] *)
Definition py_le (a b : PyVal) : Prop :=
  py_cmp a b = Some Lt \/ py_cmp a b = Some Eq.

(** The smallest of [smallest :: rest], the first one among equals. *)
Fixpoint min_from (smallest : PyVal) (rest : list PyVal) : option PyVal :=
  match rest with
  | [] => Some smallest
  | x :: rest' =>
      match py_cmp x smallest with
      | Some Lt => min_from x rest'
      | Some _ => min_from smallest rest'
      | None => None
      end
  end.

(** [min(xs)], where the order is defined. *)
Definition python_min (xs : list PyVal) : option (Result PyVal) :=
  match xs with
  | [] => Some (Raise (ValueError "min() arg is an empty sequence"))
  | x :: rest => option_map Ok (min_from x rest)
  end.

(** Puts [x] before the first item that is not smaller than it. *)
Fixpoint insert_sorted (x : PyVal) (sorted : list PyVal)
    : option (list PyVal) :=
  match sorted with
  | [] => Some [x]
  | y :: rest =>
      match py_cmp x y with
      | Some Gt => option_map (cons y) (insert_sorted x rest)
      | Some _ => Some (x :: y :: rest)
      | None => None
      end
  end.

(** [xs.sort()], where the order is defined.  The sort is stable, so the
    result does not depend on the algorithm. *)
Fixpoint python_sorted (xs : list PyVal) : option (list PyVal) :=
  match xs with
  | [] => Some []
  | x :: xs' =>
      match python_sorted xs' with
      | Some sorted => insert_sorted x sorted
      | None => None
      end
  end.

(** Adds the items that [seen] does not hold yet. *)
Fixpoint add_new_items (seen items : list PyVal) : Result (list PyVal) :=
  match items with
  | [] => Ok seen
  | x :: items' =>
      if negb (hashable x) then Raise (TypeError "unhashable type")
      else if existsb (key_eqb x) seen then add_new_items seen items'
      else add_new_items (seen ++ [x]) items'
  end.

(** [list(set().union( *values))], with the items in the order of their
    first occurrence (the order of a set is up to the interpreter). *)
Fixpoint python_set_union (seen values : list PyVal)
    : Result (list PyVal) :=
  match values with
  | [] => Ok seen
  | v :: values' =>
      match py_iter v with
      | Raise e => Raise e
      | Ok items =>
          match add_new_items seen items with
          | Raise e => Raise e
          | Ok seen' => python_set_union seen' values'
          end
      end
  end.

(** ** The collaborators *)

Record Env := {
  (* feconf, constants, rights_manager, exp_domain *)
  CURRENT_STATE_SCHEMA_VERSION : Z;
  MAX_SIZE_OF_MATH_SVGS_BATCH_BYTES : Z;
  MIGRATION_BOT_USERNAME : string;
  ENTITY_TYPE_EXPLORATION : string;
  RTE_FORMAT_CKEDITOR : string;
  ACTIVITY_STATUS_PUBLIC : string;
  ACTIVITY_STATUS_PRIVATE : string;
  ACTIVITY_TYPE_EXPLORATION : string;
  CMD_MIGRATE_STATES_SCHEMA_TO_LATEST_VERSION : string;
  (* exp_fetchers *)
  get_exploration_from_model : ExplorationModel -> Result Exploration;
  get_exploration_by_id : string -> Result Exploration;
  (* rights_manager.get_exploration_rights(exp_id, strict) *)
  get_exploration_rights : string -> bool -> Result (option ActivityRights);
  (* exploration.validate(strict): [None] when it passes *)
  validate : Exploration -> bool -> option Exn;
  (* exp_domain.Exploration.update_states_from_model: the dict after the
     call, and the exception if it raised *)
  update_states_from_model :
    VersionedStates -> Z -> string -> VersionedStates * option Exn;
  (* exp_services.update_exploration: whether the call raised *)
  update_exploration_raises :
    string -> string -> list ExplorationChange -> string -> option Exn;
  (* html_validation_service *)
  validate_svg_filenames_in_math_rich_text :
    string -> string -> string -> list PyVal;
  add_math_content_to_math_rte_components : string -> string;
  validate_math_tags_in_html_with_attribute_math_content :
    string -> list PyVal;
  get_latex_strings_without_svg_from_html : string -> list PyVal;
  validate_rte_format : list string -> string -> list (string * list PyVal);
  validate_customization_args : list string -> list (string * list PyVal);
  (* exp_domain.ExplorationMathRichTextInfo(exp_id, True, latex_strings) *)
  get_svg_size_in_bytes : PyVal -> PyVal -> Z;
  get_longest_latex_expression : PyVal -> PyVal -> string;
  (* utils, ast and built-ins whose result depends on the interpreter *)
  get_time_in_millisecs : Z -> PyVal;
  literal_eval : string -> Result PyVal;
  py_min : list PyVal -> Result PyVal;
  py_sorted : list PyVal -> Result (list PyVal);
  set_union : list PyVal -> Result (list PyVal)
}.

(** [content['status'] == status] for a dict with string keys. *)
Definition assoc_get (kv : list (string * PyVal)) (k : string)
    : Result PyVal :=
  match List.find (fun p => String.eqb (fst p) k) kv with
  | Some p => Ok (snd p)
  | None => Raise (KeyError k)
  end.

(** [exp_rights.status] where the rights object may be [None]. *)
Definition rights_status (r : option ActivityRights) : Result string :=
  match r with
  | Some r' => Ok (ar_status r')
  | None => Raise (AttributeError "'NoneType' object has no attribute 'status'")
  end.

(** The values handed to [reduce], as a Python list. *)
Definition values_list (values : list string) : PyVal :=
  PList (List.map PStr values).

(** ** The jobs *)

Module ExplorationFirstPublishedOneOffJob.

Definition map (E : Env) (item : ExplorationRightsSnapshotContentModel)
    : Run unit :=
  let* status := lift (assoc_get (rs_content item) "status") in
  if key_eqb status (PStr (ACTIVITY_STATUS_PUBLIC E)) then
    yield_ (rs_unversioned_instance_id item)
           (get_time_in_millisecs E (rs_created_on item))
  else ret tt.

(** The body has no [yield]: it is a plain function whose result the
    engine drains as an empty sequence of outputs. *)
Definition reduce (E : Env) (exp_id : string)
    (stringified_commit_times_msecs : list string) : Run unit :=
  let* exploration_rights := lift (get_exploration_rights E exp_id false) in
  match exploration_rights with
  | None => ret tt
  | Some _ =>
      let* commit_times_msecs :=
        lift (map_result (literal_eval E) stringified_commit_times_msecs) in
      let* first_published_msec := lift (py_min E commit_times_msecs) in
      emit (UpdateFirstPublishedMsec (ACTIVITY_TYPE_EXPLORATION E) exp_id
              first_published_msec)
  end.

End ExplorationFirstPublishedOneOffJob.

Module ExplorationValidityJobManager.

Definition map (E : Env) (item : ExplorationModel) : Run unit :=
  if em_deleted item then ret tt
  else
    let* exploration := lift (get_exploration_from_model E item) in
    let* exp_rights := lift (get_exploration_rights E (em_id item) true) in
    try_except is_ValidationError
      (let* status := lift (rights_status exp_rights) in
       if String.eqb status (ACTIVITY_STATUS_PRIVATE E) then
         match validate E exploration false with
         | None => ret tt
         | Some e => raise e
         end
       else
         match validate E exploration true with
         | None => ret tt
         | Some e => raise e
         end)
      (fun e => yield_ (em_id item) (PStr (exn_str e))).

Definition reduce (E : Env) (key : string) (values : list string)
    : Run unit :=
  yield_ key (values_list values).

End ExplorationValidityJobManager.

Module ExplorationMigrationAuditJob.

Definition error_message (item : ExplorationModel)
    (states_schema_version : Z) (e : Exn) : string :=
  "Exploration " +:+ em_id item +:+ " failed migration to states v" +:+
  UNICODE (states_schema_version + 1) +:+ ": " +:+ exn_str e.

(** The [while] loop of [map]. The result is the value of
    [states_schema_version] when the loop is left. *)
Equations? migration_loop (E : Env) (item : ExplorationModel)
    (versioned_exploration_states : VersionedStates)
    (states_schema_version : Z) : Run Z
  by wf (Z.to_nat (CURRENT_STATE_SCHEMA_VERSION E - states_schema_version))
        lt :=
  migration_loop E item versioned_exploration_states states_schema_version
    with Z_lt_dec states_schema_version (CURRENT_STATE_SCHEMA_VERSION E) := {
    | right _ => ret states_schema_version
    | left _
        with update_states_from_model E versioned_exploration_states
               states_schema_version (em_id item) := {
        | (_, Some e) =>
            emit (LogException
                    (error_message item states_schema_version e)) ;;
            yield_ "MIGRATION_ERROR"
                   (PStr (error_message item states_schema_version e)) ;;
            ret states_schema_version
        | (updated_states, None) =>
            (if states_schema_version + 1 =? CURRENT_STATE_SCHEMA_VERSION E
             then yield_ "SUCCESS" (PInt 1)
             else ret tt) ;;
            migration_loop E item updated_states (states_schema_version + 1)
      }
  }.
Proof. lia. Qed.

Definition map (E : Env) (item : ExplorationModel) : Run unit :=
  if em_deleted item then ret tt
  else
    let states_schema_version := em_states_schema_version item in
    let versioned_exploration_states :=
      {| vs_states_schema_version := states_schema_version;
         vs_states := em_states item |} in
    let* _ := migration_loop E item versioned_exploration_states
                states_schema_version in
    ret tt.

Definition reduce (E : Env) (key : string) (values : list string)
    : Run unit :=
  if String.eqb key "SUCCESS" then yield_ key (PInt (len values))
  else yield_ key (values_list values).

End ExplorationMigrationAuditJob.

Module ExplorationMigrationJobManager.

Definition validation_message (item : ExplorationModel) (e : Exn)
    : string :=
  "Exploration " +:+ em_id item +:+ " failed non-strict validation: " +:+
  exn_str e.

Definition commit_message (E : Env) (item : ExplorationModel) : string :=
  "Update exploration states from schema version " +:+
  UNICODE (em_states_schema_version item) +:+ " to " +:+
  UNICODE (CURRENT_STATE_SCHEMA_VERSION E) +:+ ".".

Definition map (E : Env) (item : ExplorationModel) : Run unit :=
  if em_deleted item then ret tt
  else
    let* old_exploration := lift (get_exploration_by_id E (em_id item)) in
    match validate E old_exploration false with
    | Some e => emit (LogError (validation_message item e))
    | None =>
        if negb (em_states_schema_version item =?
                 CURRENT_STATE_SCHEMA_VERSION E)
        then
          let commit_cmds :=
            [ {| ec_cmd := CMD_MIGRATE_STATES_SCHEMA_TO_LATEST_VERSION E;
                 ec_from_version :=
                   UNICODE (em_states_schema_version item);
                 ec_to_version :=
                   UNICODE (CURRENT_STATE_SCHEMA_VERSION E) |} ] in
          emit (UpdateExploration (MIGRATION_BOT_USERNAME E) (em_id item)
                  commit_cmds (commit_message E item)) ;;
          match update_exploration_raises E (MIGRATION_BOT_USERNAME E)
                  (em_id item) commit_cmds (commit_message E item) with
          | Some e => raise e
          | None => yield_ "SUCCESS" (PStr (em_id item))
          end
        else ret tt
    end.

Definition reduce (E : Env) (key : string) (values : list string)
    : Run unit :=
  yield_ key (PInt (len values)).

End ExplorationMigrationJobManager.

Module ExplorationMathSvgFilenameValidationOneOffJob.

Definition invalid_tags_info_in_state (state_name : string)
    (error_list : list PyVal) : PyVal :=
  PDict [ (PStr "state_name", PStr state_name);
          (PStr "error_list", PList error_list);
          (PStr "no_of_invalid_tags", PInt (len error_list)) ].

(** The [for state_name, state in exploration.states.items()] loop, which
    appends to [invalid_tags_info_in_exp]. *)
Fixpoint collect_invalid_tags (E : Env) (item : ExplorationModel)
    (states : list (string * State)) (invalid_tags_info_in_exp : list PyVal)
    : list PyVal :=
  match states with
  | [] => invalid_tags_info_in_exp
  | (state_name, state) :: states' =>
      let html_string := join (st_html_content_strings state) in
      let error_list :=
        validate_svg_filenames_in_math_rich_text E
          (ENTITY_TYPE_EXPLORATION E) (em_id item) html_string in
      collect_invalid_tags E item states'
        (if len error_list >? 0
         then invalid_tags_info_in_exp ++
              [invalid_tags_info_in_state state_name error_list]
         else invalid_tags_info_in_exp)
  end.

Definition map (E : Env) (item : ExplorationModel) : Run unit :=
  if em_deleted item then ret tt
  else
    let* exploration := lift (get_exploration_from_model E item) in
    let invalid_tags_info_in_exp :=
      collect_invalid_tags E item (ex_states exploration) [] in
    if len invalid_tags_info_in_exp >? 0 then
      yield_ "Found invalid tags"
             (PTuple [PStr (em_id item); PList invalid_tags_info_in_exp])
    else ret tt.

(** The inner [for value in invalid_tags_info_in_exp] loop: adds up
    [no_of_invalid_tags], deletes that key from [value] and appends
    [value] to the list kept under [exp_id]. *)
Fixpoint add_values (values : list PyVal) (no_of_invalid_tags : Z)
    (kept : list PyVal) : Result (Z * list PyVal) :=
  match values with
  | [] => Ok (no_of_invalid_tags, kept)
  | value :: values' =>
      match py_getitem value (PStr "no_of_invalid_tags") with
      | Raise e => Raise e
      | Ok count =>
          match as_int count with
          | Raise e => Raise e
          | Ok n =>
              match py_delitem value (PStr "no_of_invalid_tags") with
              | Raise e => Raise e
              | Ok value' =>
                  add_values values' (no_of_invalid_tags + n)
                    (kept ++ [value'])
              end
          end
      end
  end.

(** The outer [for exp_id, invalid_tags_info_in_exp in final_values]. *)
Fixpoint add_explorations (final_values : list PyVal)
    (no_of_invalid_tags : Z) (invalid_tags_info : list (PyVal * PyVal))
    : Result (Z * list (PyVal * PyVal)) :=
  match final_values with
  | [] => Ok (no_of_invalid_tags, invalid_tags_info)
  | final_value :: final_values' =>
      match unpack2 final_value with
      | Raise e => Raise e
      | Ok (exp_id, invalid_tags_info_in_exp) =>
          if negb (hashable exp_id) then Raise (TypeError "unhashable type")
          else
            match py_iter invalid_tags_info_in_exp with
            | Raise e => Raise e
            | Ok values =>
                match add_values values no_of_invalid_tags [] with
                | Raise e => Raise e
                | Ok (n, kept) =>
                    add_explorations final_values' n
                      (dict_set invalid_tags_info exp_id (PList kept))
                end
            end
      end
  end.

Definition reduce (E : Env) (key : string) (values : list string)
    : Run unit :=
  let* final_values := lift (map_result (literal_eval E) values) in
  let* (no_of_invalid_tags, invalid_tags_info) :=
    lift (add_explorations final_values 0 []) in
  let final_value_dict :=
    PDict [ (PStr "no_of_explorations_with_no_svgs",
             PInt (len final_values));
            (PStr "no_of_invalid_tags", PInt no_of_invalid_tags) ] in
  yield_ "Overall result." final_value_dict ;;
  yield_ "Detailed information on invalid tags. " (PDict invalid_tags_info).

End ExplorationMathSvgFilenameValidationOneOffJob.

Module ExplorationMockMathMigrationOneOffJob.

Definition map (E : Env) (item : ExplorationModel) : Run unit :=
  if em_deleted item then ret tt
  else
    let* exploration := lift (get_exploration_from_model E item) in
    let* exp_rights := lift (get_exploration_rights E (em_id item) true) in
    let* exploration_status := lift (rights_status exp_rights) in
    for_each (ex_states exploration) (fun name_and_state =>
      let state_name := fst name_and_state in
      let state := snd name_and_state in
      let html_string := join (st_html_content_strings state) in
      let converted_html_string :=
        add_math_content_to_math_rte_components E html_string in
      let error_list :=
        validate_math_tags_in_html_with_attribute_math_content E
          converted_html_string in
      if len error_list >? 0 then
        let key :=
          "exp_id: " +:+ em_id item +:+ ", exp_status: " +:+
          exploration_status +:+ " failed validation after migration" in
        let value_dict :=
          PDict [ (PStr "state_name", PStr state_name);
                  (PStr "error_list", PList error_list);
                  (PStr "no_of_invalid_tags", PInt (len error_list)) ] in
        yield_ key value_dict
      else ret tt).

Definition reduce (E : Env) (key : string) (values : list string)
    : Run unit :=
  yield_ key (values_list values).

End ExplorationMockMathMigrationOneOffJob.

Module ExplorationMathRichTextInfoModelGenerationOneOffJob.

Definition _SUCCESS_KEY : string := "exploration-with-math-tags".

Definition validation_message (item : ExplorationModel) (e : Exn)
    : string :=
  "Exploration " +:+ em_id item +:+ " failed non-strict validation: " +:+
  exn_str e.

Definition map (E : Env) (item : ExplorationModel) : Run unit :=
  if em_deleted item then ret tt
  else
    let* exploration := lift (get_exploration_from_model E item) in
    match validate E exploration false with
    | Some e =>
        emit (LogError (validation_message item e)) ;;
        yield_ "validation_error" (PStr (validation_message item e))
    | None =>
        let html_strings_in_exploration :=
          fold_left
            (fun html state =>
               html +:+ join (st_html_content_strings state))
            (List.map snd (ex_states exploration)) "" in
        let list_of_latex_strings_without_svg :=
          get_latex_strings_without_svg_from_html E
            html_strings_in_exploration in
        if len list_of_latex_strings_without_svg >? 0 then
          yield_ _SUCCESS_KEY
                 (PTuple [PStr (em_id item);
                          PList list_of_latex_strings_without_svg])
        else ret tt
    end.

(** The local variables of the batching loop of [reduce]. *)
Record Batching := {
  estimated_no_of_batches : Z;
  approx_size_of_math_svgs_bytes_in_current_batch : Z;
  exploration_math_rich_text_info_list : list (PyVal * PyVal);
  longest_raw_latex_string : string;
  total_number_of_svgs_required : Z
}.

(** [max(a, b, key=len)]: the first of the longest. *)
Definition max_by_len (a b : string) : string :=
  if (String.length a <? String.length b)%nat then b else a.

Fixpoint batch (E : Env) (final_values : list PyVal) (b : Batching)
    : Result Batching :=
  match final_values with
  | [] => Ok b
  | final_value :: final_values' =>
      match unpack2 final_value with
      | Raise e => Raise e
      | Ok (exp_id, list_of_latex_strings_without_svg) =>
          let approx_size_of_math_svgs_bytes :=
            get_svg_size_in_bytes E exp_id
              list_of_latex_strings_without_svg in
          match py_len list_of_latex_strings_without_svg with
          | Raise e => Raise e
          | Ok n =>
              let size :=
                approx_size_of_math_svgs_bytes_in_current_batch b +
                approx_size_of_math_svgs_bytes in
              let full := size >? MAX_SIZE_OF_MATH_SVGS_BATCH_BYTES E in
              batch E final_values'
                {| estimated_no_of_batches :=
                     if full then estimated_no_of_batches b + 1
                     else estimated_no_of_batches b;
                   approx_size_of_math_svgs_bytes_in_current_batch :=
                     if full then 0 else size;
                   exploration_math_rich_text_info_list :=
                     exploration_math_rich_text_info_list b ++
                     [(exp_id, list_of_latex_strings_without_svg)];
                   longest_raw_latex_string :=
                     max_by_len
                       (get_longest_latex_expression E exp_id
                          list_of_latex_strings_without_svg)
                       (longest_raw_latex_string b);
                   total_number_of_svgs_required :=
                     total_number_of_svgs_required b + n |}
          end
      end
  end.

Definition reduce (E : Env) (key : string) (values : list string)
    : Run unit :=
  if String.eqb key _SUCCESS_KEY then
    let* final_values := lift (map_result (literal_eval E) values) in
    let* b :=
      lift (batch E final_values
              {| estimated_no_of_batches := 1;
                 approx_size_of_math_svgs_bytes_in_current_batch := 0;
                 exploration_math_rich_text_info_list := [];
                 longest_raw_latex_string := "";
                 total_number_of_svgs_required := 0 |}) in
    emit (SaveMultiMathRichTextInfo
            (exploration_math_rich_text_info_list b)) ;;
    let final_value_dict :=
      PDict [ (PStr "estimated_no_of_batches",
               PInt (estimated_no_of_batches b));
              (PStr "longest_raw_latex_string",
               PStr (longest_raw_latex_string b));
              (PStr "number_of_explorations_having_math",
               PInt (len final_values));
              (PStr "total_number_of_svgs_required",
               PInt (total_number_of_svgs_required b)) ] in
    yield_ key final_value_dict
  else yield_ key (values_list values).

End ExplorationMathRichTextInfoModelGenerationOneOffJob.

Module ExplorationMathRichTextInfoModelDeletionOneOffJob.

Definition map (E : Env) (item : ExplorationMathRichTextInfoModel)
    : Run unit :=
  emit (ModelDelete (mi_id item)) ;;
  yield_ "model_deleted" (PInt 1).

(** [sum(ast.literal_eval(v) for v in values)], starting from 0. *)
Fixpoint sum_literals (E : Env) (values : list string) (acc : Z)
    : Result Z :=
  match values with
  | [] => Ok acc
  | v :: values' =>
      match literal_eval E v with
      | Raise e => Raise e
      | Ok x =>
          match as_int x with
          | Raise e => Raise e
          | Ok n => sum_literals E values' (acc + n)
          end
      end
  end.

Definition report (no_of_models_deleted : Z) : PyVal :=
  PList [PStr (UNICODE no_of_models_deleted +:+
               " models successfully delelted.")].

Definition reduce (E : Env) (key : string) (values : list string)
    : Run unit :=
  let* no_of_models_deleted := lift (sum_literals E values 0) in
  yield_ key (report no_of_models_deleted).

End ExplorationMathRichTextInfoModelDeletionOneOffJob.

Module ViewableExplorationsAuditJob.

Definition map (E : Env) (item : ExplorationModel) : Run unit :=
  if em_deleted item then ret tt
  else
    let* exploration_rights :=
      lift (get_exploration_rights E (em_id item) false) in
    match exploration_rights with
    | None => ret tt
    | Some rights =>
        if String.eqb (ar_status rights) (ACTIVITY_STATUS_PRIVATE E)
           && ar_viewable_if_private rights
        then yield_ (em_id item) (PStr (em_title item))
        else ret tt
    end.

Definition reduce (E : Env) (key : string) (values : list string)
    : Run unit :=
  yield_ key (values_list values).

End ViewableExplorationsAuditJob.

Module HintsAuditOneOffJob.

Definition map (E : Env) (item : ExplorationModel) : Run unit :=
  if em_deleted item then ret tt
  else
    let* exploration := lift (get_exploration_from_model E item) in
    for_each (ex_states exploration) (fun name_and_state =>
      let state_name := fst name_and_state in
      let state := snd name_and_state in
      let hints_length := len (st_hints state) in
      if hints_length >? 0 then
        let* encoded_state_name := lift (format_bytes state_name) in
        let exp_and_state_key :=
          em_id item +:+ " " +:+ encoded_state_name in
        yield_ (UNICODE hints_length) (PStr exp_and_state_key)
      else ret tt).

Definition reduce (E : Env) (key : string) (values : list string)
    : Run unit :=
  yield_ key (values_list values).

End HintsAuditOneOffJob.

Module ExplorationContentValidationJobForCKEditor.

Definition map (E : Env) (item : ExplorationModel) : Run unit :=
  if em_deleted item then ret tt
  else
    match get_exploration_from_model E item with
    | Raise e =>
        yield_ ("Error " +:+ exn_str e +:+ " when loading exploration")
               (PList [PStr (em_id item)])
    | Ok exploration =>
        let html_list := ex_all_html_content_strings exploration in
        let err_dict :=
          validate_rte_format E html_list (RTE_FORMAT_CKEDITOR E) in
        for_each err_dict (fun entry =>
          let key := fst entry in
          match snd entry with
          | [] => ret tt
          | _ :: _ =>
              yield_ (key +:+ " Exp Id: " +:+ em_id item)
                     (PList (snd entry))
          end)
    end.

Definition reduce (E : Env) (key : string) (values : list string)
    : Run unit :=
  let* final_values := lift (map_result (literal_eval E) values) in
  let* output_values := lift (set_union E final_values) in
  let exp_id_index := find key "Exp Id:" in
  if exp_id_index =? -1 then yield_ key (PList output_values)
  else
    yield_ (slice_to key (exp_id_index - 1))
           (PList (output_values ++ [PStr (slice_from key exp_id_index)])).

End ExplorationContentValidationJobForCKEditor.

Module RTECustomizationArgsValidationOneOffJob.

Definition map (E : Env) (item : ExplorationModel) : Run unit :=
  if em_deleted item then ret tt
  else
    match get_exploration_from_model E item with
    | Raise e =>
        yield_ ("Error " +:+ exn_str e +:+ " when loading exploration")
               (PList [PStr (em_id item)])
    | Ok exploration =>
        let html_list := ex_all_html_content_strings exploration in
        let err_dict := validate_customization_args E html_list in
        for_each err_dict (fun entry =>
          let key := fst entry in
          let err_value_with_exp_id :=
            (snd entry ++ [PStr ("Exp ID: " +:+ em_id item)])%list in
          yield_ key (PList err_value_with_exp_id))
    end.

(** [[item for sublist in final_values for item in sublist]] *)
Fixpoint flatten (final_values : list PyVal) : Result (list PyVal) :=
  match final_values with
  | [] => Ok []
  | sublist :: final_values' =>
      match py_iter sublist with
      | Raise e => Raise e
      | Ok items =>
          match flatten final_values' with
          | Raise e => Raise e
          | Ok rest => Ok (items ++ rest)%list
          end
      end
  end.

(** The [while index < len(flattened_values)] loop. Building the tuple
    reads [flattened_values[index + 1]] first, then
    [flattened_values[index]]. [index] starts at 0 and only grows, so it
    is kept as a natural number. *)
Equations? pairing_loop (flattened_values : list PyVal) (index : nat)
    (output_values : list PyVal) : Result (list PyVal)
  by wf (length flattened_values - index)%nat lt :=
  pairing_loop flattened_values index output_values
    with lt_dec index (length flattened_values) := {
    | right _ => Ok output_values
    | left _ with list_getitem flattened_values (index + 1) := {
        | Raise e => Raise e
        | Ok exp_id with list_getitem flattened_values index := {
            | Raise e => Raise e
            | Ok err =>
                pairing_loop flattened_values (index + 2)
                  (output_values ++ [PTuple [exp_id; err]])
          }
      }
  }.
Proof. lia. Qed.

Definition reduce (E : Env) (key : string) (values : list string)
    : Run unit :=
  let* final_values := lift (map_result (literal_eval E) values) in
  let* flattened_values := lift (flatten final_values) in
  if contains "loading exploration" key then
    yield_ key (PList flattened_values)
  else
    let* output_values := lift (pairing_loop flattened_values 0 []) in
    let* sorted_values := lift (py_sorted E output_values) in
    yield_ key (PList sorted_values).

End RTECustomizationArgsValidationOneOffJob.

(** ** The jobs as a family *)

Inductive Job : Type :=
| FirstPublished
| Validity
| MigrationAudit
| Migration
| MathSvgFilenameValidation
| MockMathMigration
| MathRichTextInfoModelGeneration
| MathRichTextInfoModelDeletion
| ViewableExplorationsAudit
| HintsAudit
| ContentValidationForCKEditor
| RTECustomizationArgsValidation.

Inductive EntityClass : Type :=
| ExplorationModelClass
| ExplorationRightsSnapshotContentModelClass
| ExplorationMathRichTextInfoModelClass.

(** [entity_classes_to_map_over]: every job declares one class. *)
Definition entity_classes_to_map_over (j : Job) : EntityClass :=
  match j with
  | FirstPublished => ExplorationRightsSnapshotContentModelClass
  | MathRichTextInfoModelDeletion => ExplorationMathRichTextInfoModelClass
  | _ => ExplorationModelClass
  end.

Definition instance_of (c : EntityClass) : Type :=
  match c with
  | ExplorationModelClass => ExplorationModel
  | ExplorationRightsSnapshotContentModelClass =>
      ExplorationRightsSnapshotContentModel
  | ExplorationMathRichTextInfoModelClass => ExplorationMathRichTextInfoModel
  end.

(** [item.deleted] *)
Definition deleted {c : EntityClass} : instance_of c -> bool :=
  match c with
  | ExplorationModelClass => em_deleted
  | ExplorationRightsSnapshotContentModelClass => rs_deleted
  | ExplorationMathRichTextInfoModelClass => mi_deleted
  end.

Definition job_map (E : Env) (j : Job)
    : instance_of (entity_classes_to_map_over j) -> Run unit :=
  match j with
  | FirstPublished => ExplorationFirstPublishedOneOffJob.map E
  | Validity => ExplorationValidityJobManager.map E
  | MigrationAudit => ExplorationMigrationAuditJob.map E
  | Migration => ExplorationMigrationJobManager.map E
  | MathSvgFilenameValidation =>
      ExplorationMathSvgFilenameValidationOneOffJob.map E
  | MockMathMigration => ExplorationMockMathMigrationOneOffJob.map E
  | MathRichTextInfoModelGeneration =>
      ExplorationMathRichTextInfoModelGenerationOneOffJob.map E
  | MathRichTextInfoModelDeletion =>
      ExplorationMathRichTextInfoModelDeletionOneOffJob.map E
  | ViewableExplorationsAudit => ViewableExplorationsAuditJob.map E
  | HintsAudit => HintsAuditOneOffJob.map E
  | ContentValidationForCKEditor =>
      ExplorationContentValidationJobForCKEditor.map E
  | RTECustomizationArgsValidation =>
      RTECustomizationArgsValidationOneOffJob.map E
  end.

Definition job_reduce (E : Env) (j : Job)
    : string -> list string -> Run unit :=
  match j with
  | FirstPublished => ExplorationFirstPublishedOneOffJob.reduce E
  | Validity => ExplorationValidityJobManager.reduce E
  | MigrationAudit => ExplorationMigrationAuditJob.reduce E
  | Migration => ExplorationMigrationJobManager.reduce E
  | MathSvgFilenameValidation =>
      ExplorationMathSvgFilenameValidationOneOffJob.reduce E
  | MockMathMigration => ExplorationMockMathMigrationOneOffJob.reduce E
  | MathRichTextInfoModelGeneration =>
      ExplorationMathRichTextInfoModelGenerationOneOffJob.reduce E
  | MathRichTextInfoModelDeletion =>
      ExplorationMathRichTextInfoModelDeletionOneOffJob.reduce E
  | ViewableExplorationsAudit => ViewableExplorationsAuditJob.reduce E
  | HintsAudit => HintsAuditOneOffJob.reduce E
  | ContentValidationForCKEditor =>
      ExplorationContentValidationJobForCKEditor.reduce E
  | RTECustomizationArgsValidation =>
      RTECustomizationArgsValidationOneOffJob.reduce E
  end.

(** ** A concrete set of collaborators

    A small instance of [Env] on which the jobs can be run.  Loading the
    exploration ["corrupt"] raises; an exploration without states fails
    validation; the state conversion raises for the exploration ["stuck"];
    [literal_eval] knows the literals that the examples use. *)

Definition sample_state : State :=
  {| st_html_content_strings := ["<p>hello</p>"];
     st_hints := [PStr "a hint"] |}.

Definition sample_exploration : Exploration :=
  {| ex_states := [("Introduction", sample_state)];
     ex_all_html_content_strings := ["<p>hello</p>"] |}.

Definition empty_exploration : Exploration :=
  {| ex_states := []; ex_all_html_content_strings := [] |}.

Definition sample_load (exp_id : string) : Result Exploration :=
  if String.eqb exp_id "corrupt" then Raise (OtherException "corrupt model")
  else if String.eqb exp_id "empty" then Ok empty_exploration
  else Ok sample_exploration.

(** [min] and [sort] as the interpreter has them: where the order of the
    model is not defined they raise, as Python 3 does. *)
Definition sample_min (xs : list PyVal) : Result PyVal :=
  match python_min xs with
  | Some result => result
  | None => Raise (TypeError "'<' not supported between instances")
  end.

Definition sample_sorted (xs : list PyVal) : Result (list PyVal) :=
  match python_sorted xs with
  | Some sorted => Ok sorted
  | None => Raise (TypeError "'<' not supported between instances")
  end.

Definition sample_literal_eval (s : string) : Result PyVal :=
  if String.eqb s "1" then Ok (PInt 1)
  else if String.eqb s "1500000000000" then Ok (PInt 1500000000000)
  else if String.eqb s "('e1', [])" then Ok (PTuple [PStr "e1"; PList []])
  else if String.eqb s "['bad tag', 'Exp ID: e1']"
       then Ok (PList [PStr "bad tag"; PStr "Exp ID: e1"])
  else if String.eqb s "['bad tag']" then Ok (PList [PStr "bad tag"])
  else Raise (ValueError "malformed node or string").

Definition sample_env : Env :=
  {| CURRENT_STATE_SCHEMA_VERSION := 3;
     MAX_SIZE_OF_MATH_SVGS_BATCH_BYTES := 1000;
     MIGRATION_BOT_USERNAME := "OppiaMigrationBot";
     ENTITY_TYPE_EXPLORATION := "exploration";
     RTE_FORMAT_CKEDITOR := "ck-editor";
     ACTIVITY_STATUS_PUBLIC := "public";
     ACTIVITY_STATUS_PRIVATE := "private";
     ACTIVITY_TYPE_EXPLORATION := "exploration";
     CMD_MIGRATE_STATES_SCHEMA_TO_LATEST_VERSION :=
       "migrate_states_schema_to_latest_version";
     get_exploration_from_model := fun item => sample_load (em_id item);
     get_exploration_by_id := sample_load;
     get_exploration_rights := fun exp_id strict =>
       if String.eqb exp_id "norights" then
         if strict then Raise (OtherException "Entity not found")
         else Ok None
       else Ok (Some {| ar_status := "private";
                        ar_viewable_if_private := false |});
     validate := fun exploration strict =>
       match ex_states exploration with
       | [] => Some (ValidationError "This exploration has no states.")
       | _ :: _ => None
       end;
     update_states_from_model := fun versioned version exp_id =>
       if String.eqb exp_id "stuck"
       then (versioned, Some (OtherException "conversion failed"))
       else ({| vs_states_schema_version := version + 1;
                vs_states := vs_states versioned |}, None);
     update_exploration_raises := fun _ _ _ _ => None;
     validate_svg_filenames_in_math_rich_text := fun _ _ _ => [];
     add_math_content_to_math_rte_components := fun html => html;
     validate_math_tags_in_html_with_attribute_math_content := fun _ => [];
     get_latex_strings_without_svg_from_html := fun _ => [];
     validate_rte_format := fun html_list _ =>
       [ ("invalidTags", [PStr "blink"]);
         ("strings", [PStr "<blink>hello</blink>"]) ];
     validate_customization_args := fun _ => [];
     get_svg_size_in_bytes := fun _ _ => 0;
     get_longest_latex_expression := fun _ _ => "";
     get_time_in_millisecs := fun created_on => PInt created_on;
     literal_eval := sample_literal_eval;
     py_min := sample_min;
     py_sorted := sample_sorted;
     set_union := python_set_union []
  |}.

Definition sample_item (exp_id : string) (is_deleted : bool) (version : Z)
    : ExplorationModel :=
  {| em_id := exp_id;
     em_deleted := is_deleted;
     em_states_schema_version := version;
     em_states := PDict [];
     em_title := "A title" |}.

(** [n] steps of the migration loop, starting from the dict
    [versioned_exploration_states] at version [states_schema_version], all
    return without raising. *)
Fixpoint update_steps_succeed (E : Env) (exp_id : string) (n : nat)
    (versioned_exploration_states : VersionedStates)
    (states_schema_version : Z) : bool :=
  match n with
  | O => true
  | S n' =>
      match update_states_from_model E versioned_exploration_states
              states_schema_version exp_id with
      | (updated_states, None) =>
          update_steps_succeed E exp_id n' updated_states
            (states_schema_version + 1)
      | (_, Some _) => false
      end
  end.

(** Every update step that the audit job runs on [item] succeeds. *)
Definition migration_steps_succeed (E : Env) (item : ExplorationModel)
    : bool :=
  update_steps_succeed E (em_id item)
    (Z.to_nat (CURRENT_STATE_SCHEMA_VERSION E -
               em_states_schema_version item))
    {| vs_states_schema_version := em_states_schema_version item;
       vs_states := em_states item |}
    (em_states_schema_version item).

(** [[PTuple [exp_id; err]; ...]] for a list [[err; exp_id; ...]]: what the
    pairing loop of the customization-args job is meant to build. *)
Fixpoint pairs_of (flattened_values : list PyVal) : list PyVal :=
  match flattened_values with
  | err :: exp_id :: rest => PTuple [exp_id; err] :: pairs_of rest
  | _ => []
  end.

(** The three shapes a trace of the audit loop can have. *)
Inductive audit_fate : list Event -> Prop :=
| audit_silent : audit_fate []
| audit_success : audit_fate [Yield "SUCCESS" (PInt 1)]
| audit_error (msg : string) :
    audit_fate [LogException msg; Yield "MIGRATION_ERROR" (PStr msg)].

(** Everything the map steps of the deletion job yield over a scan. *)
Definition deletion_scan (E : Env)
    (items : list ExplorationMathRichTextInfoModel)
    : list (string * PyVal) :=
  flat_map
    (fun item =>
       emissions (ExplorationMathRichTextInfoModelDeletionOneOffJob.map
                    E item))
    items.

(** A step that writes nothing to the datastore. *)
Definition quiet {A} (r : Run A) : Prop :=
  Forall (fun ev => is_store_write ev = false) (trace r).

(** *** Collaborators that report problems

    A second instance of [Env]: the html checks find something in every
    exploration, [update_exploration] raises, rights are public, and
    [literal_eval] knows a few more literals. *)

(** The exploration ["accents"] has a first state with an ASCII name, a
    second one whose name holds bytes above 127 (the UTF-8 form of an
    accented letter), and a third one. *)
Definition accented_state_name : string :=
  String (Ascii.ascii_of_nat 68) (String (Ascii.ascii_of_nat 195)
    (String (Ascii.ascii_of_nat 169) "but")).

Definition accented_exploration : Exploration :=
  {| ex_states :=
       [ ("Introduction", sample_state);
         (accented_state_name, sample_state);
         ("End", sample_state) ];
     ex_all_html_content_strings := ["<p>hello</p>"] |}.

Definition faulty_load (exp_id : string) : Result Exploration :=
  if String.eqb exp_id "accents" then Ok accented_exploration
  else sample_load exp_id.

Definition faulty_literal_eval (s : string) : Result PyVal :=
  if String.eqb s "['bad tag', 'Exp ID: e1']"
  then Ok (PList [PStr "bad tag"; PStr "Exp ID: e1"])
  else if String.eqb s "['worse tag', 'Exp ID: e2']"
  then Ok (PList [PStr "worse tag"; PStr "Exp ID: e2"])
  else if String.eqb s "('e1', ['x^2', 'y'])"
  then Ok (PTuple [PStr "e1"; PList [PStr "x^2"; PStr "y"]])
  else if String.eqb s "('e2', ['z'])"
  then Ok (PTuple [PStr "e2"; PList [PStr "z"]])
  else if String.eqb s
            "('e3', [{'state_name': 'Intro', 'error_list': ['missing.svg'], 'no_of_invalid_tags': 1}])"
  then Ok (PTuple
             [ PStr "e3";
               PList [ PDict [ (PStr "state_name", PStr "Intro");
                               (PStr "error_list",
                                PList [PStr "missing.svg"]);
                               (PStr "no_of_invalid_tags", PInt 1) ] ] ])
  else if String.eqb s "2" then Ok (PInt 2)
  else if String.eqb s "3" then Ok (PInt 3)
  else if String.eqb s "'three'" then Ok (PStr "three")
  else if String.eqb s "['e1']" then Ok (PList [PStr "e1"])
  else if String.eqb s "['blink', 'marquee']"
  then Ok (PList [PStr "blink"; PStr "marquee"])
  else Raise (ValueError "malformed node or string").

Definition faulty_env : Env :=
  {| CURRENT_STATE_SCHEMA_VERSION := 3;
     MAX_SIZE_OF_MATH_SVGS_BATCH_BYTES := 1000;
     MIGRATION_BOT_USERNAME := "OppiaMigrationBot";
     ENTITY_TYPE_EXPLORATION := "exploration";
     RTE_FORMAT_CKEDITOR := "ck-editor";
     ACTIVITY_STATUS_PUBLIC := "public";
     ACTIVITY_STATUS_PRIVATE := "private";
     ACTIVITY_TYPE_EXPLORATION := "exploration";
     CMD_MIGRATE_STATES_SCHEMA_TO_LATEST_VERSION :=
       "migrate_states_schema_to_latest_version";
     get_exploration_from_model := fun item => faulty_load (em_id item);
     get_exploration_by_id := faulty_load;
     get_exploration_rights := fun exp_id strict =>
       if String.eqb exp_id "hidden" then
         Ok (Some {| ar_status := "private";
                     ar_viewable_if_private := true |})
       else Ok (Some {| ar_status := "public";
                        ar_viewable_if_private := false |});
     validate := fun exploration strict =>
       if strict then Some (OtherException "unexpected failure")
       else None;
     update_states_from_model := fun versioned version exp_id =>
       if version =? 2
       then (versioned, Some (OtherException "conversion failed"))
       else ({| vs_states_schema_version := version + 1;
                vs_states := vs_states versioned |}, None);
     update_exploration_raises := fun _ _ _ _ =>
       Some (OtherException "commit failed");
     validate_svg_filenames_in_math_rich_text := fun _ _ _ =>
       [PStr "missing.svg"];
     add_math_content_to_math_rte_components := fun html => html;
     validate_math_tags_in_html_with_attribute_math_content := fun _ =>
       [PStr "bad math tag"];
     get_latex_strings_without_svg_from_html := fun _ => [PStr "x^2"];
     validate_rte_format := fun _ _ => [("invalidTags", [])];
     validate_customization_args := fun _ =>
       [ ("Invalid filepath", [PStr "bad tag"]); ("Missing alt", []) ];
     get_svg_size_in_bytes := fun _ _ => 600;
     get_longest_latex_expression := fun exp_id _ =>
       match exp_id with PStr "e1" => "x^2" | _ => "z" end;
     get_time_in_millisecs := fun created_on => PInt created_on;
     literal_eval := faulty_literal_eval;
     py_min := sample_min;
     py_sorted := sample_sorted;
     set_union := python_set_union []
  |}.

(** *** The first update step that raises *)

(** Among [n] update steps starting at [states_schema_version], the version
    at which [update_states_from_model] first raises, with the exception;
    [None] when all [n] steps return. *)
Fixpoint first_failure (E : Env) (exp_id : string) (n : nat)
    (versioned_exploration_states : VersionedStates)
    (states_schema_version : Z) : option (Z * Exn) :=
  match n with
  | O => None
  | S n' =>
      match update_states_from_model E versioned_exploration_states
              states_schema_version exp_id with
      | (_, Some e) => Some (states_schema_version, e)
      | (updated_states, None) =>
          first_failure E exp_id n' updated_states
            (states_schema_version + 1)
      end
  end.

(** The change list that the migration job commits for [item]. *)
Definition migration_change_list (E : Env) (item : ExplorationModel)
    : list ExplorationChange :=
  [ {| ec_cmd := CMD_MIGRATE_STATES_SCHEMA_TO_LATEST_VERSION E;
       ec_from_version := UNICODE (em_states_schema_version item);
       ec_to_version := UNICODE (CURRENT_STATE_SCHEMA_VERSION E) |} ].

(** The call of [update_exploration] that the migration job makes. *)
Definition migration_write (E : Env) (item : ExplorationModel) : Event :=
  UpdateExploration (MIGRATION_BOT_USERNAME E) (em_id item)
    (migration_change_list E item)
    (ExplorationMigrationJobManager.commit_message E item).

(** *** Sums over the values of a reduce step *)

Definition sum_Z (xs : list Z) : Z := fold_right Z.add 0 xs.

(** The approximate SVG size of each (exp_id, latex strings) pair. *)
Definition svg_sizes (E : Env) (pairs : list (PyVal * PyVal)) : list Z :=
  List.map (fun p => get_svg_size_in_bytes E (fst p) (snd p)) pairs.

(** The dict that the math-info generation job reports. *)
Definition generation_report (batches : Z) (longest : string)
    (explorations total : Z) : PyVal :=
  PDict [ (PStr "estimated_no_of_batches", PInt batches);
          (PStr "longest_raw_latex_string", PStr longest);
          (PStr "number_of_explorations_having_math", PInt explorations);
          (PStr "total_number_of_svgs_required", PInt total) ].

(** *** The values of the SVG-filename job *)

(** What the map step of the SVG-filename job yields for an exploration
    whose states with errors are [states] (name and error list). *)
Definition svg_value (exploration : string * list (string * list PyVal))
    : PyVal :=
  PTuple [ PStr (fst exploration);
           PList (List.map
                    (fun st =>
                       ExplorationMathSvgFilenameValidationOneOffJob.invalid_tags_info_in_state
                         (fst st) (snd st))
                    (snd exploration)) ].

(** A state entry once its count has been deleted. *)
Definition svg_entry_without_count (st : string * list PyVal) : PyVal :=
  PDict [ (PStr "state_name", PStr (fst st));
          (PStr "error_list", PList (snd st)) ].

(** The number of invalid tags over all states of all explorations. *)
Definition svg_total (explorations : list (string * list (string * list PyVal)))
    : Z :=
  sum_Z (List.map
           (fun exploration =>
              sum_Z (List.map (fun st => len (snd st)) (snd exploration)))
           explorations).

(** The detailed dict, built exploration by exploration. *)
Definition svg_detailed
    (explorations : list (string * list (string * list PyVal)))
    : list (PyVal * PyVal) :=
  fold_left
    (fun detailed exploration =>
       dict_set detailed (PStr (fst exploration))
         (PList (List.map svg_entry_without_count (snd exploration))))
    explorations [].

(** *** What the scanning loops of the map steps select *)

(** The entry that the SVG-filename job keeps for a state: present only
    when the state has invalid tags. *)
Definition svg_state_info (E : Env) (item : ExplorationModel)
    (name_and_state : string * State) : option PyVal :=
  let error_list :=
    validate_svg_filenames_in_math_rich_text E (ENTITY_TYPE_EXPLORATION E)
      (em_id item) (join (st_html_content_strings (snd name_and_state))) in
  match error_list with
  | [] => None
  | _ :: _ =>
      Some (ExplorationMathSvgFilenameValidationOneOffJob.invalid_tags_info_in_state
              (fst name_and_state) error_list)
  end.

(** The pair that the mock math migration job yields for a state. *)
Definition mock_state_pair (E : Env) (item : ExplorationModel)
    (exploration_status : string) (name_and_state : string * State)
    : option (string * PyVal) :=
  let error_list :=
    validate_math_tags_in_html_with_attribute_math_content E
      (add_math_content_to_math_rte_components E
         (join (st_html_content_strings (snd name_and_state)))) in
  match error_list with
  | [] => None
  | _ :: _ =>
      Some ("exp_id: " +:+ em_id item +:+ ", exp_status: " +:+
            exploration_status +:+ " failed validation after migration",
            PDict [ (PStr "state_name", PStr (fst name_and_state));
                    (PStr "error_list", PList error_list);
                    (PStr "no_of_invalid_tags", PInt (len error_list)) ])
  end.

(** The pair that the hints job yields for a state. *)
Definition hints_state_pair (item : ExplorationModel)
    (name_and_state : string * State) : option (string * PyVal) :=
  match st_hints (snd name_and_state) with
  | [] => None
  | hints =>
      Some (UNICODE (len hints),
            PStr (em_id item +:+ " " +:+ fst name_and_state))
  end.

(** The pair that the CKEditor job yields for an error category. *)
Definition ckeditor_category_pair (item : ExplorationModel)
    (entry : string * list PyVal) : option (string * PyVal) :=
  match snd entry with
  | [] => None
  | errors => Some (fst entry +:+ " Exp Id: " +:+ em_id item, PList errors)
  end.

(** The pair that the customization-args job yields for an error key. *)
Definition rte_error_pair (item : ExplorationModel)
    (entry : string * list PyVal) : string * PyVal :=
  (fst entry, PList (snd entry ++ [PStr ("Exp ID: " +:+ em_id item)])).

(** A step that yields the given pairs, does nothing else, and returns. *)
Definition yields_only (pairs : list (string * PyVal)) : Run unit :=
  MkRun (List.map (fun p => Yield (fst p) (snd p)) pairs) (Ok tt).

(** *** The built-ins of an interpreter

    [py_min] and [py_sorted] of [Env] are [min] and [list.sort] of the
    interpreter.  Where the order of the model is defined they have to
    agree with it. *)


Definition sorts_like_python (E : Env) : Prop :=
  forall xs sorted, python_sorted xs = Some sorted ->
                    py_sorted E xs = Ok sorted.

(** Induction on values that goes through the items of lists and
    tuples. *)
Section PyVal_items_ind.
Variable P : PyVal -> Prop.
Hypothesis HNone : P PNone.
Hypothesis HBool : forall b, P (PBool b).
Hypothesis HInt : forall z, P (PInt z).
Hypothesis HStr : forall s, P (PStr s).
Hypothesis HList : forall l, Forall P l -> P (PList l).
Hypothesis HTuple : forall l, Forall P l -> P (PTuple l).
Hypothesis HDict : forall kv, P (PDict kv).

Fixpoint PyVal_items_ind (v : PyVal) : P v :=
  match v with
  | PNone => HNone
  | PBool b => HBool b
  | PInt z => HInt z
  | PStr s => HStr s
  | PList l =>
      HList l
        ((fix items (l : list PyVal) : Forall P l :=
            match l with
            | [] => @List.Forall_nil _ P
            | x :: l' =>
                @List.Forall_cons _ P x l' (PyVal_items_ind x) (items l')
            end) l)
  | PTuple l =>
      HTuple l
        ((fix items (l : list PyVal) : Forall P l :=
            match l with
            | [] => @List.Forall_nil _ P
            | x :: l' =>
                @List.Forall_cons _ P x l' (PyVal_items_ind x) (items l')
            end) l)
  | PDict kv => HDict kv
  end.
End PyVal_items_ind.

(** ** Properties *)

(** *** The built-ins on examples *)

Example find_exp_id : find "strings Exp Id: e1" "Exp Id:" = 8.
Proof. reflexivity. Qed.

Example find_absent : find "Error x when loading exploration" "Exp Id:" = -1.
Proof. reflexivity. Qed.

Example slice_key :
  slice_to "strings Exp Id: e1" 7 = "strings" /\
  slice_from "strings Exp Id: e1" 8 = "Exp Id: e1" /\
  slice_to "Exp Id: e1" (-1) = "Exp Id: e".
Proof. repeat split. Qed.

Example contains_loading :
  contains "loading exploration" "Error x when loading exploration" = true /\
  contains "loading exploration" "Invalid filepath" = false.
Proof. split; reflexivity. Qed.

Example unicode_of_int : UNICODE 12 = "12" /\ UNICODE 0 = "0".
Proof. split; reflexivity. Qed.

Example pairs_of_four :
  pairs_of [PStr "err1"; PStr "id1"; PStr "err2"; PStr "id2"] =
  [PTuple [PStr "id1"; PStr "err1"]; PTuple [PStr "id2"; PStr "err2"]].
Proof. reflexivity. Qed.

(** *** The monad *)

Ltac run_unfold :=
  unfold and_then, bind, lift, emit, yield_, ret, raise, try_except in *;
  simpl in *.

Lemma emissions_bind {A B} (m : Run A) (f : A -> Run B) :
  emissions (bind m f) =
  match outcome m with
  | Ok a => (emissions m ++ emissions (f a))%list
  | Raise _ => emissions m
  end.
Proof.
  unfold emissions, bind. destruct (outcome m); simpl; [|reflexivity].
  apply omap_app.
Qed.

Lemma trace_bind {A B} (m : Run A) (f : A -> Run B) :
  trace (bind m f) =
  match outcome m with
  | Ok a => (trace m ++ trace (f a))%list
  | Raise _ => trace m
  end.
Proof. unfold bind. destruct (outcome m); reflexivity. Qed.

Lemma outcome_bind {A B} (m : Run A) (f : A -> Run B) :
  outcome (bind m f) =
  match outcome m with
  | Ok a => outcome (f a)
  | Raise e => Raise e
  end.
Proof. unfold bind. destruct (outcome m); reflexivity. Qed.

(** *** Soft-deleted records *)

(** C1 (as amended): every job that scans [ExplorationModel] records treats
    a record whose deletion flag is set as a no-op: its map step yields
    nothing, records no event at all and returns normally. *)
Theorem soft_deleted_exploration_is_noop (E : Env) (j : Job)
    (item : instance_of (entity_classes_to_map_over j)) :
  entity_classes_to_map_over j = ExplorationModelClass ->
  deleted item = true ->
  trace (job_map E j item) = [] /\
  emissions (job_map E j item) = [] /\
  outcome (job_map E j item) = Ok tt.
Proof.
  intros Hclass Hdel.
  destruct j; simpl in *; try discriminate Hclass;
    match goal with
    | |- context [?m E item] => unfold m
    end;
    rewrite Hdel; repeat split; reflexivity.
Qed.

Lemma soft_deleted_exploration_is_noop_witness :
  trace (job_map sample_env Validity (sample_item "e1" true 1)) = [] /\
  emissions (job_map sample_env Validity (sample_item "e1" true 1)) = [] /\
  outcome (job_map sample_env Validity (sample_item "e1" true 1)) = Ok tt.
Proof.
  apply (soft_deleted_exploration_is_noop sample_env Validity
           (sample_item "e1" true 1)); reflexivity.
Defined.

(** C1 as stated fails: the deletion job deletes and reports a record whose
    deletion flag is set like any other record. *)
Lemma deletion_job_ignores_deleted_flag :
  @deleted (entity_classes_to_map_over MathRichTextInfoModelDeletion)
    {| mi_id := "m1"; mi_deleted := true |} = true /\
  emissions (job_map sample_env MathRichTextInfoModelDeletion
               {| mi_id := "m1"; mi_deleted := true |})
    = [("model_deleted", PInt 1)] /\
  store_writes (job_map sample_env MathRichTextInfoModelDeletion
                  {| mi_id := "m1"; mi_deleted := true |})
    = [ModelDelete "m1"].
Proof. repeat split. Qed.

(** *** The migration job *)

(** C4: a record that is not deleted and already at the current states
    schema version makes the migration job yield nothing and write nothing
    to the datastore. *)
Theorem migration_up_to_date_no_emission_no_write (E : Env)
    (item : ExplorationModel) :
  em_deleted item = false ->
  em_states_schema_version item = CURRENT_STATE_SCHEMA_VERSION E ->
  emissions (ExplorationMigrationJobManager.map E item) = [] /\
  store_writes (ExplorationMigrationJobManager.map E item) = [].
Proof.
  intros Hdel Hver. unfold ExplorationMigrationJobManager.map.
  rewrite Hdel, Hver, Z.eqb_refl. simpl.
  destruct (get_exploration_by_id E (em_id item)) as [old|e];
    [|split; reflexivity].
  unfold bind, lift; simpl.
  destruct (validate E old false); split; reflexivity.
Qed.

Lemma migration_up_to_date_no_emission_no_write_witness :
  emissions (ExplorationMigrationJobManager.map sample_env
               (sample_item "e1" false 3)) = [] /\
  store_writes (ExplorationMigrationJobManager.map sample_env
                  (sample_item "e1" false 3)) = [].
Proof.
  apply migration_up_to_date_no_emission_no_write; reflexivity.
Defined.

(** C5: in the migration job a datastore write happens only after the
    stored exploration was loaded and passed non-strict validation; when
    that validation raises, the step logs the failure and ends there, with
    no write and no emission. *)
Theorem migration_validates_before_write (E : Env)
    (item : ExplorationModel) :
  em_deleted item = false ->
  (forall ev,
     In ev (trace (ExplorationMigrationJobManager.map E item)) ->
     is_store_write ev = true ->
     exists old_exploration,
       get_exploration_by_id E (em_id item) = Ok old_exploration /\
       validate E old_exploration false = None) /\
  (forall old_exploration e,
     get_exploration_by_id E (em_id item) = Ok old_exploration ->
     validate E old_exploration false = Some e ->
     trace (ExplorationMigrationJobManager.map E item) =
       [LogError
          (ExplorationMigrationJobManager.validation_message item e)] /\
     outcome (ExplorationMigrationJobManager.map E item) = Ok tt /\
     store_writes (ExplorationMigrationJobManager.map E item) = [] /\
     emissions (ExplorationMigrationJobManager.map E item) = []).
Proof.
  intros Hdel. unfold ExplorationMigrationJobManager.map. rewrite Hdel.
  split.
  - intros ev Hin Hw.
    destruct (get_exploration_by_id E (em_id item)) as [old|e] eqn:Hload;
      [|destruct Hin].
    exists old. split; [reflexivity|].
    unfold bind, lift in Hin; simpl in Hin.
    destruct (validate E old false) as [e|] eqn:Hval; [|reflexivity].
    simpl in Hin. destruct Hin as [<-|[]]. discriminate Hw.
  - intros old e Hload Hval. rewrite Hload.
    unfold bind, lift; simpl. rewrite Hval.
    repeat split.
Qed.

Lemma migration_validates_before_write_witness :
  trace (ExplorationMigrationJobManager.map sample_env
           (sample_item "empty" false 1)) =
    [LogError "Exploration empty failed non-strict validation: This exploration has no states."] /\
  store_writes (ExplorationMigrationJobManager.map sample_env
                  (sample_item "empty" false 1)) = [].
Proof.
  destruct (migration_validates_before_write sample_env
              (sample_item "empty" false 1) eq_refl) as [_ H].
  destruct (H empty_exploration
              (ValidationError "This exploration has no states.")
              eq_refl eq_refl) as (Ht & _ & Hw & _).
  split; [exact Ht | exact Hw].
Defined.

(** *** The migration audit job *)

(** One turn of the [while] loop, as the source writes it. *)
Lemma migration_loop_step (E : Env) (item : ExplorationModel)
    (versioned : VersionedStates) (version : Z) :
  ExplorationMigrationAuditJob.migration_loop E item versioned version =
  if Z_lt_dec version (CURRENT_STATE_SCHEMA_VERSION E) then
    match update_states_from_model E versioned version (em_id item) with
    | (_, Some e) =>
        emit (LogException
                (ExplorationMigrationAuditJob.error_message item version e)) ;;
        yield_ "MIGRATION_ERROR"
               (PStr (ExplorationMigrationAuditJob.error_message
                        item version e)) ;;
        ret version
    | (updated_states, None) =>
        (if version + 1 =? CURRENT_STATE_SCHEMA_VERSION E
         then yield_ "SUCCESS" (PInt 1)
         else ret tt) ;;
        ExplorationMigrationAuditJob.migration_loop E item updated_states
          (version + 1)
    end
  else ret version.
Proof.
  rewrite ExplorationMigrationAuditJob.migration_loop_equation_1.
  destruct (Z_lt_dec version (CURRENT_STATE_SCHEMA_VERSION E)); simpl;
    [|reflexivity].
  destruct (update_states_from_model E versioned version (em_id item))
    as [updated [e|]]; reflexivity.
Qed.

Lemma migration_loop_done (E : Env) (item : ExplorationModel)
    (versioned : VersionedStates) (version : Z) :
  CURRENT_STATE_SCHEMA_VERSION E <= version ->
  ExplorationMigrationAuditJob.migration_loop E item versioned version =
  ret version.
Proof.
  intros Hge. rewrite migration_loop_step.
  destruct (Z_lt_dec version (CURRENT_STATE_SCHEMA_VERSION E));
    [lia | reflexivity].
Qed.

(** When no step raises, the loop yields SUCCESS once, in its last turn,
    and leaves with the current version. *)
Lemma migration_loop_succeeds (E : Env) (item : ExplorationModel) (n : nat) :
  forall (versioned : VersionedStates) (version : Z),
    n = Z.to_nat (CURRENT_STATE_SCHEMA_VERSION E - version) ->
    version < CURRENT_STATE_SCHEMA_VERSION E ->
    update_steps_succeed E (em_id item) n versioned version = true ->
    ExplorationMigrationAuditJob.migration_loop E item versioned version =
    MkRun [Yield "SUCCESS" (PInt 1)] (Ok (CURRENT_STATE_SCHEMA_VERSION E)).
Proof.
  induction n as [|n IH]; intros versioned version Hn Hlt Hok; [lia|].
  rewrite migration_loop_step.
  destruct (Z_lt_dec version (CURRENT_STATE_SCHEMA_VERSION E)); [|lia].
  simpl in Hok.
  destruct (update_states_from_model E versioned version (em_id item))
    as [updated [e|]]; [discriminate Hok|].
  destruct (version + 1 =? CURRENT_STATE_SCHEMA_VERSION E) eqn:Hlast.
  - apply Z.eqb_eq in Hlast.
    rewrite migration_loop_done by lia. rewrite Hlast. reflexivity.
  - apply Z.eqb_neq in Hlast.
    rewrite (IH updated (version + 1)) by (try assumption; lia).
    reflexivity.
Qed.

(** The loop never lets an exception out, and its trace has one of the
    three shapes. *)
Lemma migration_loop_fate (E : Env) (item : ExplorationModel) (n : nat) :
  forall (versioned : VersionedStates) (version : Z),
    n = Z.to_nat (CURRENT_STATE_SCHEMA_VERSION E - version) ->
    exists tr final,
      ExplorationMigrationAuditJob.migration_loop E item versioned version =
        MkRun tr (Ok final) /\
      audit_fate tr.
Proof.
  induction n as [|n IH]; intros versioned version Hn.
  - rewrite migration_loop_done by lia.
    exists [], version. split; [reflexivity | constructor].
  - rewrite migration_loop_step.
    destruct (Z_lt_dec version (CURRENT_STATE_SCHEMA_VERSION E)); [|lia].
    destruct (update_states_from_model E versioned version (em_id item))
      as [updated [e|]].
    + eexists _, version. split; [reflexivity | constructor].
    + destruct (version + 1 =? CURRENT_STATE_SCHEMA_VERSION E) eqn:Hlast.
      * apply Z.eqb_eq in Hlast. rewrite migration_loop_done by lia.
        eexists _, _. split; [reflexivity | constructor].
      * destruct (IH updated (version + 1)) as (tr & final & Heq & Hfate);
          [lia|].
        rewrite Heq. exists tr, final. split; [reflexivity | exact Hfate].
Qed.


(** C6 (as amended): for a record that is not deleted and whose states
    schema version is below the current one, if every update step of the
    migration loop returns without raising, the loop is left with the
    version equal to the current states schema version and the map step
    yields exactly one pair, ('SUCCESS', 1). *)
Theorem audit_success_when_all_steps_succeed (E : Env)
    (item : ExplorationModel) :
  em_deleted item = false ->
  em_states_schema_version item < CURRENT_STATE_SCHEMA_VERSION E ->
  migration_steps_succeed E item = true ->
  outcome (ExplorationMigrationAuditJob.migration_loop E item
             {| vs_states_schema_version := em_states_schema_version item;
                vs_states := em_states item |}
             (em_states_schema_version item))
    = Ok (CURRENT_STATE_SCHEMA_VERSION E) /\
  emissions (ExplorationMigrationAuditJob.map E item)
    = [("SUCCESS", PInt 1)] /\
  outcome (ExplorationMigrationAuditJob.map E item) = Ok tt.
Proof.
  intros Hdel Hlt Hok. unfold ExplorationMigrationAuditJob.map.
  rewrite Hdel.
  rewrite (migration_loop_succeeds E item _ _ _ eq_refl Hlt Hok).
  repeat split.
Qed.

Lemma audit_success_when_all_steps_succeed_witness :
  emissions (ExplorationMigrationAuditJob.map sample_env
               (sample_item "e1" false 1)) = [("SUCCESS", PInt 1)].
Proof.
  apply (audit_success_when_all_steps_succeed sample_env
           (sample_item "e1" false 1)); reflexivity.
Defined.

(** C6 as stated fails for a record already at the current version: no
    update step runs, so none raises, yet nothing is yielded, because the
    SUCCESS test sits inside the loop body. *)
Lemma audit_up_to_date_yields_nothing :
  em_deleted (sample_item "e1" false 3) = false /\
  migration_steps_succeed sample_env (sample_item "e1" false 3) = true /\
  emissions (ExplorationMigrationAuditJob.map sample_env
               (sample_item "e1" false 3)) = [].
Proof. repeat split. Qed.

(** *** The deletion job *)

Lemma deletion_scan_repeat (E : Env)
    (items : list ExplorationMathRichTextInfoModel) :
  deletion_scan E items = repeat ("model_deleted", PInt 1) (length items).
Proof.
  induction items as [|item items IH]; [reflexivity|].
  unfold deletion_scan in *. simpl. now rewrite IH.
Qed.

Lemma sum_literals_ones (E : Env) (values : list string) :
  forall acc,
    Forall (fun v => literal_eval E v = Ok (PInt 1)) values ->
    ExplorationMathRichTextInfoModelDeletionOneOffJob.sum_literals
      E values acc = Ok (acc + len values).
Proof.
  induction values as [|v values IH]; intros acc Hall; simpl.
  - unfold len. simpl. now rewrite Z.add_0_r.
  - inversion Hall as [|? ? Hv Hrest]; subst. rewrite Hv. simpl.
    rewrite IH by assumption. unfold len. simpl length. f_equal. lia.
Qed.

(** C7: the map step of the deletion job yields exactly one
    ('model_deleted', 1) pair per scanned record, so a scan yields as many
    such pairs as there are records; and when the values handed to reduce
    are the literals of the yielded values, their sum is the number of
    scanned records and reduce yields, under the key, the one-item list
    with that number in decimal followed by
    ' models successfully delelted.'. *)
Theorem deletion_job_counts_records (E : Env)
    (items : list ExplorationMathRichTextInfoModel)
    (values : list string) :
  Forall2 (fun v emission => literal_eval E v = Ok (snd emission))
          values (deletion_scan E items) ->
  (forall item,
     emissions (ExplorationMathRichTextInfoModelDeletionOneOffJob.map
                  E item) = [("model_deleted", PInt 1)]) /\
  deletion_scan E items = repeat ("model_deleted", PInt 1) (length items) /\
  length (deletion_scan E items) = length items /\
  ExplorationMathRichTextInfoModelDeletionOneOffJob.sum_literals E values 0
    = Ok (len items) /\
  job_reduce E MathRichTextInfoModelDeletion "model_deleted" values =
    yield_ "model_deleted"
      (PList [PStr (pretty (Z.of_nat (length items)) +:+
                    " models successfully delelted.")]).
Proof.
  intros Hvalues.
  assert (Hlen : length values = length items).
  { apply Forall2_length in Hvalues.
    now rewrite deletion_scan_repeat, repeat_length in Hvalues. }
  assert (Hones : Forall (fun v => literal_eval E v = Ok (PInt 1)) values).
  { rewrite deletion_scan_repeat in Hvalues.
    clear Hlen. revert Hvalues. generalize (length items) as n.
    induction values as [|v values IH]; intros n H; [constructor|].
    destruct n as [|n]; inversion H; subst.
    constructor; [assumption | eauto]. }
  assert (Hsum :
    ExplorationMathRichTextInfoModelDeletionOneOffJob.sum_literals E values 0
    = Ok (len items)).
  { rewrite sum_literals_ones by assumption. unfold len. now rewrite Hlen. }
  repeat split.
  - apply deletion_scan_repeat.
  - now rewrite deletion_scan_repeat, repeat_length.
  - exact Hsum.
  - simpl. unfold ExplorationMathRichTextInfoModelDeletionOneOffJob.reduce.
    rewrite Hsum. reflexivity.
Qed.

Lemma deletion_job_counts_records_witness :
  job_reduce sample_env MathRichTextInfoModelDeletion "model_deleted"
    ["1"; "1"] =
  yield_ "model_deleted" (PList [PStr "2 models successfully delelted."]).
Proof.
  apply (deletion_job_counts_records sample_env
           [ {| mi_id := "m1"; mi_deleted := false |};
             {| mi_id := "m2"; mi_deleted := false |} ]
           ["1"; "1"]).
  repeat constructor.
Defined.

(** *** The pairing loop of the customization-args job *)

Lemma pairing_loop_step (flattened_values : list PyVal) (index : nat)
    (output_values : list PyVal) :
  RTECustomizationArgsValidationOneOffJob.pairing_loop
    flattened_values index output_values =
  if lt_dec index (length flattened_values) then
    match list_getitem flattened_values (index + 1) with
    | Raise e => Raise e
    | Ok exp_id =>
        match list_getitem flattened_values index with
        | Raise e => Raise e
        | Ok err =>
            RTECustomizationArgsValidationOneOffJob.pairing_loop
              flattened_values (index + 2)
              (output_values ++ [PTuple [exp_id; err]])
        end
    end
  else Ok output_values.
Proof.
  rewrite RTECustomizationArgsValidationOneOffJob.pairing_loop_equation_1.
  destruct (lt_dec index (length flattened_values)); simpl; [|reflexivity].
  destruct (list_getitem flattened_values (index + 1)); simpl;
    [|reflexivity].
  destruct (list_getitem flattened_values index); reflexivity.
Qed.

(** The loop seen from a position [length done] of the list: what is left
    decides how it ends. *)
Lemma pairing_loop_from (n : nat) :
  forall (done rest output_values : list PyVal),
    (length rest <= n)%nat ->
    RTECustomizationArgsValidationOneOffJob.pairing_loop
      (done ++ rest) (length done) output_values =
    if Nat.even (length rest)
    then Ok (output_values ++ pairs_of rest)%list
    else Raise (IndexError "list index out of range").
Proof.
  induction n as [|n IH]; intros done rest output_values Hn;
    rewrite pairing_loop_step, length_app.
  - destruct rest; [|simpl in Hn; lia]. simpl.
    destruct (lt_dec (length done) (length done + 0)); [lia|].
    now rewrite app_nil_r.
  - destruct rest as [|err [|exp_id rest]]; simpl length.
    + destruct (lt_dec (length done) (length done + 0)); [lia|].
      simpl. now rewrite app_nil_r.
    + destruct (lt_dec (length done) (length done + 1)); [|lia].
      unfold list_getitem at 1.
      rewrite lookup_ge_None_2 by (rewrite length_app; simpl; lia).
      reflexivity.
    + destruct (lt_dec (length done) (length done + S (S (length rest))));
        [|lia].
      unfold list_getitem.
      replace (done ++ err :: exp_id :: rest)%list
        with ((done ++ [err]) ++ exp_id :: rest)%list at 1
        by now rewrite <- app_assoc.
      replace (length done + 1)%nat with (length (done ++ [err]))
        by (rewrite length_app; reflexivity).
      rewrite list_lookup_middle by reflexivity.
      rewrite list_lookup_middle by reflexivity.
      replace (done ++ err :: exp_id :: rest)%list
        with ((done ++ [err; exp_id]) ++ rest)%list
        by now rewrite <- app_assoc.
      replace (length done + 2)%nat
        with (length (done ++ [err; exp_id]))
        by (rewrite length_app; reflexivity).
      rewrite IH by (simpl in Hn; lia).
      simpl. destruct (Nat.even (length rest)); [|reflexivity].
      now rewrite <- app_assoc.
Qed.

Lemma pairing_loop_result (flattened_values : list PyVal) :
  RTECustomizationArgsValidationOneOffJob.pairing_loop flattened_values 0 []
  = if Nat.even (length flattened_values)
    then Ok (pairs_of flattened_values)
    else Raise (IndexError "list index out of range").
Proof.
  exact (pairing_loop_from (length flattened_values) [] flattened_values []
           (Nat.le_refl _)).
Qed.

(** C10: in the reduce step of the customization-args job, for a key that
    does not contain 'loading exploration', the pairing loop reads
    [flattened_values[index]] and [flattened_values[index + 1]] at even
    [index].  When the flattened list has even length every such read is in
    bounds and the loop builds the pairs; when it has odd length the last
    read, of [flattened_values[index + 1]] at [index = len - 1], is out of
    bounds and reduce ends with IndexError, yielding nothing. *)
Theorem pairing_loop_index_bounds (E : Env) (key : string)
    (values : list string) (final_values flattened_values : list PyVal) :
  contains "loading exploration" key = false ->
  map_result (literal_eval E) values = Ok final_values ->
  RTECustomizationArgsValidationOneOffJob.flatten final_values
    = Ok flattened_values ->
  (Nat.even (length flattened_values) = true ->
     (forall index : nat,
        Nat.even index = true ->
        (index < length flattened_values)%nat ->
        is_Some (flattened_values !! index) /\
        is_Some (flattened_values !! (index + 1)%nat)) /\
     RTECustomizationArgsValidationOneOffJob.pairing_loop
       flattened_values 0 [] = Ok (pairs_of flattened_values) /\
     job_reduce E RTECustomizationArgsValidation key values =
       (let* sorted_values := lift (py_sorted E (pairs_of flattened_values))
        in yield_ key (PList sorted_values))) /\
  (Nat.even (length flattened_values) = false ->
     Nat.even (length flattened_values - 1) = true /\
     (length flattened_values - 1 < length flattened_values)%nat /\
     list_getitem flattened_values (length flattened_values - 1 + 1)
       = Raise (IndexError "list index out of range") /\
     (forall index : nat,
        Nat.even index = true ->
        (index < length flattened_values - 1)%nat ->
        is_Some (flattened_values !! index) /\
        is_Some (flattened_values !! (index + 1)%nat)) /\
     RTECustomizationArgsValidationOneOffJob.pairing_loop
       flattened_values 0 [] = Raise (IndexError "list index out of range") /\
     job_reduce E RTECustomizationArgsValidation key values =
       MkRun [] (Raise (IndexError "list index out of range"))).
Proof.
  intros Hkey Hvalues Hflat.
  assert (Hreduce :
    job_reduce E RTECustomizationArgsValidation key values =
    (let* output_values :=
       lift (RTECustomizationArgsValidationOneOffJob.pairing_loop
               flattened_values 0 []) in
     let* sorted_values := lift (py_sorted E output_values) in
     yield_ key (PList sorted_values))).
  { simpl. unfold RTECustomizationArgsValidationOneOffJob.reduce.
    rewrite Hvalues. unfold bind at 1, lift at 1. simpl.
    rewrite Hflat. unfold bind at 1, lift at 1. simpl.
    rewrite Hkey.
    destruct (RTECustomizationArgsValidationOneOffJob.pairing_loop
                flattened_values 0 []) as [out|e]; unfold bind, lift; simpl.
    - destruct (py_sorted E out); reflexivity.
    - reflexivity. }
  assert (Heven_odd : forall k : nat,
            Nat.even k = true -> (k < length flattened_values)%nat ->
            Nat.even (length flattened_values) = true ->
            (k + 1 < length flattened_values)%nat).
  { intros k Hk Hlt Hlen.
    apply Nat.even_spec in Hk. apply Nat.even_spec in Hlen.
    destruct Hk as [a ->]. destruct Hlen as [b Hb]. lia. }
  split; intros Hparity.
  - split; [|split].
    + intros index Hidx Hlt.
      split; apply lookup_lt_is_Some_2; [lia|]. now apply Heven_odd.
    + now rewrite pairing_loop_result, Hparity.
    + rewrite Hreduce, pairing_loop_result, Hparity.
      unfold bind, lift; simpl.
      destruct (py_sorted E (pairs_of flattened_values)); reflexivity.
  - assert (Hodd : Nat.odd (length flattened_values) = true).
    { rewrite <- Nat.negb_even, Hparity. reflexivity. }
    apply Nat.odd_spec in Hodd. destruct Hodd as [b Hb].
    split; [|split; [|split; [|split; [|split]]]].
    + apply Nat.even_spec. exists b. lia.
    + lia.
    + unfold list_getitem. rewrite lookup_ge_None_2 by lia. reflexivity.
    + intros index Hidx Hlt. apply Nat.even_spec in Hidx.
      destruct Hidx as [a ->].
      split; apply lookup_lt_is_Some_2; lia.
    + now rewrite pairing_loop_result, Hparity.
    + rewrite Hreduce, pairing_loop_result, Hparity. reflexivity.
Qed.

Lemma pairing_loop_index_bounds_witness :
  job_reduce sample_env RTECustomizationArgsValidation "Invalid filepath"
    ["['bad tag']"] =
  MkRun [] (Raise (IndexError "list index out of range")).
Proof.
  destruct (pairing_loop_index_bounds sample_env "Invalid filepath"
              ["['bad tag']"] [PList [PStr "bad tag"]] [PStr "bad tag"]
              eq_refl eq_refl eq_refl) as [_ Hodd].
  destruct (Hodd eq_refl) as (_ & _ & _ & _ & _ & H).
  exact H.
Defined.

(** *** How many pairs reduce produces *)

(** C2 (as amended): the reduce steps of the validity, migration audit,
    migration, mock math migration, viewable explorations and hints jobs
    always produce exactly one pair under the key they were given; those of
    the math-info generation, deletion and customization-args jobs do so
    whenever they return without raising; the CKEditor job produces one
    pair whenever it returns, under the given key when it holds no
    'Exp Id:' part and otherwise under [key[:i - 1]], the key cut one
    character before the index [i] of 'Exp Id:', with [key[i:]] appended
    to the united values; the first-published job produces no pair at all
    and the SVG-filename job, when it returns, two pairs under fixed
    keys. *)
Theorem reduce_output_count (E : Env) (j : Job) (key : string)
    (values : list string) :
  (In j [Validity; MigrationAudit; Migration; MockMathMigration;
         ViewableExplorationsAudit; HintsAudit] ->
   exists aggregate,
     job_reduce E j key values = yield_ key aggregate) /\
  (In j [MathRichTextInfoModelGeneration; MathRichTextInfoModelDeletion;
         RTECustomizationArgsValidation] ->
   outcome (job_reduce E j key values) = Ok tt ->
   exists aggregate,
     emissions (job_reduce E j key values) = [(key, aggregate)]) /\
  (j = ContentValidationForCKEditor ->
   outcome (job_reduce E j key values) = Ok tt ->
   exists final_values output_values,
     map_result (literal_eval E) values = Ok final_values /\
     set_union E final_values = Ok output_values /\
     emissions (job_reduce E j key values) =
       [ if find key "Exp Id:" =? -1
         then (key, PList output_values)
         else (slice_to key (find key "Exp Id:" - 1),
               PList (output_values ++
                      [PStr (slice_from key (find key "Exp Id:"))])) ]) /\
  (j = FirstPublished ->
   emissions (job_reduce E j key values) = []) /\
  (j = MathSvgFilenameValidation ->
   outcome (job_reduce E j key values) = Ok tt ->
   exists overall detailed,
     emissions (job_reduce E j key values) =
       [("Overall result.", overall);
        ("Detailed information on invalid tags. ", detailed)]).
Proof.
  repeat split.
  - intros Hj. simpl in Hj.
    destruct Hj as [<-|[<-|[<-|[<-|[<-|[<-|[]]]]]]]; simpl;
      try (eexists; reflexivity).
    unfold ExplorationMigrationAuditJob.reduce.
    destruct (String.eqb key "SUCCESS"); eexists; reflexivity.
  - intros Hj Hret. simpl in Hj. destruct Hj as [<-|[<-|[<-|[]]]]; simpl in *.
    + unfold ExplorationMathRichTextInfoModelGenerationOneOffJob.reduce in *.
      destruct (String.eqb key _); [|eexists; reflexivity].
      destruct (map_result (literal_eval E) values) as [final|e];
        [|discriminate Hret].
      unfold bind at 1, lift at 1 in Hret. unfold bind at 1, lift at 1.
      simpl in *.
      destruct (ExplorationMathRichTextInfoModelGenerationOneOffJob.batch
                  E final _) as [b|e]; [|discriminate Hret].
      eexists; reflexivity.
    + unfold ExplorationMathRichTextInfoModelDeletionOneOffJob.reduce in *.
      destruct (ExplorationMathRichTextInfoModelDeletionOneOffJob.sum_literals
                  E values 0) as [n|e]; [|discriminate Hret].
      eexists; reflexivity.
    + unfold RTECustomizationArgsValidationOneOffJob.reduce in *.
      destruct (map_result (literal_eval E) values) as [final|e];
        [|discriminate Hret].
      unfold bind at 1, lift at 1 in Hret. unfold bind at 1, lift at 1.
      simpl in *.
      destruct (RTECustomizationArgsValidationOneOffJob.flatten final)
        as [flat|e]; [|discriminate Hret].
      unfold bind at 1, lift at 1 in Hret. unfold bind at 1, lift at 1.
      simpl in *.
      destruct (contains "loading exploration" key);
        [eexists; reflexivity|].
      destruct (RTECustomizationArgsValidationOneOffJob.pairing_loop
                  flat 0 []) as [out|e]; [|discriminate Hret].
      unfold bind at 1, lift at 1 in Hret. unfold bind at 1, lift at 1.
      simpl in *.
      destruct (py_sorted E out) as [sorted|e]; [|discriminate Hret].
      eexists; reflexivity.
  - intros -> Hret. simpl in *.
    unfold ExplorationContentValidationJobForCKEditor.reduce in *.
    destruct (map_result (literal_eval E) values) as [final|e];
      [|discriminate Hret].
    unfold bind at 1, lift at 1 in Hret. unfold bind at 1, lift at 1.
    simpl in *.
    destruct (set_union E final) as [out|e] eqn:Hunion;
      [|discriminate Hret].
    exists final, out. split; [reflexivity|]. split; [exact Hunion|].
    unfold bind, lift; simpl.
    destruct (find key "Exp Id:" =? -1); reflexivity.
  - intros ->. simpl.
    unfold ExplorationFirstPublishedOneOffJob.reduce.
    destruct (get_exploration_rights E key false) as [[rights|]|e];
      try reflexivity.
    unfold bind at 1, lift at 1. simpl.
    destruct (map_result (literal_eval E) values) as [times|e];
      [|reflexivity].
    unfold bind at 1, lift at 1. simpl.
    destruct (py_min E times); reflexivity.
  - intros -> Hret. simpl in *.
    unfold ExplorationMathSvgFilenameValidationOneOffJob.reduce in *.
    destruct (map_result (literal_eval E) values) as [final|e];
      [|discriminate Hret].
    unfold bind at 1, lift at 1 in Hret. unfold bind at 1, lift at 1.
    simpl in *.
    destruct (ExplorationMathSvgFilenameValidationOneOffJob.add_explorations
                final 0 []) as [[n info]|e]; [|discriminate Hret].
    eexists _, _. reflexivity.
Qed.

Lemma reduce_output_count_witness :
  (exists aggregate,
     emissions (job_reduce sample_env MathRichTextInfoModelDeletion
                  "model_deleted" ["1"; "1"])
     = [("model_deleted", aggregate)]) /\
  emissions (job_reduce faulty_env ContentValidationForCKEditor
               "invalidTags Exp Id: e1" ["['blink', 'marquee']"])
  = [("invalidTags",
      PList [PStr "blink"; PStr "marquee"; PStr "Exp Id: e1"])].
Proof.
  split.
  - destruct (reduce_output_count sample_env MathRichTextInfoModelDeletion
                "model_deleted" ["1"; "1"]) as (_ & H & _).
    apply H; [right; left; reflexivity | reflexivity].
  - destruct (reduce_output_count faulty_env ContentValidationForCKEditor
                "invalidTags Exp Id: e1" ["['blink', 'marquee']"])
      as (_ & _ & H & _).
    destruct (H eq_refl eq_refl) as (fv & out & Hfv & Hout & Hem).
    injection Hfv as <-. injection Hout as <-. exact Hem.
Defined.

(** C2 as stated fails: given one value, the reduce step of the
    first-published job produces no pair, and that of the SVG-filename job
    produces two pairs, neither under the key it was given. *)
Lemma reduce_without_single_output :
  ["1500000000000"] <> [] /\
  job_reduce sample_env FirstPublished "e1" ["1500000000000"] =
    emit (UpdateFirstPublishedMsec "exploration" "e1" (PInt 1500000000000)) /\
  emissions (job_reduce sample_env FirstPublished "e1" ["1500000000000"])
    = [] /\
  emissions (job_reduce sample_env MathSvgFilenameValidation
               "Found invalid tags" ["('e1', [])"]) =
    [ ("Overall result.",
       PDict [ (PStr "no_of_explorations_with_no_svgs", PInt 1);
               (PStr "no_of_invalid_tags", PInt 0) ]);
      ("Detailed information on invalid tags. ",
       PDict [ (PStr "e1", PList []) ]) ].
Proof. repeat split. discriminate. Qed.

(** *** Failures of a single record *)





(** *** One fate per record *)



(** *** Writes to the datastore *)

Lemma quiet_ret {A} (a : A) : quiet (ret a).
Proof. constructor. Qed.

Lemma quiet_raise {A} (e : Exn) : quiet (@raise A e).
Proof. constructor. Qed.

Lemma quiet_lift {A} (r : Result A) : quiet (lift r).
Proof. constructor. Qed.

Lemma quiet_yield (key : string) (value : PyVal) : quiet (yield_ key value).
Proof. repeat constructor. Qed.

Lemma quiet_log_error (msg : string) : quiet (emit (LogError msg)).
Proof. repeat constructor. Qed.

Lemma quiet_log_exception (msg : string) : quiet (emit (LogException msg)).
Proof. repeat constructor. Qed.

Lemma quiet_bind {A B} (m : Run A) (f : A -> Run B) :
  quiet m -> (forall a, quiet (f a)) -> quiet (bind m f).
Proof.
  unfold quiet. intros Hm Hf. rewrite trace_bind.
  destruct (outcome m); [|assumption].
  apply Forall_app. split; [assumption | apply Hf].
Qed.

Lemma quiet_and_then {A} (m : Run unit) (k : Run A) :
  quiet m -> quiet k -> quiet (m ;; k).
Proof. intros Hm Hk. apply quiet_bind; [assumption | intros _; exact Hk]. Qed.

Lemma quiet_try_except {A} (catches : Exn -> bool) (body : Run A)
    (handler : Exn -> Run A) :
  quiet body -> (forall e, quiet (handler e)) ->
  quiet (try_except catches body handler).
Proof.
  unfold quiet, try_except. intros Hb Hh.
  destruct (outcome body) as [a|e]; [assumption|].
  destruct (catches e); [|assumption].
  apply Forall_app. split; [assumption | apply Hh].
Qed.

Lemma quiet_for_each {A} (xs : list A) (body : A -> Run unit) :
  (forall x, quiet (body x)) -> quiet (for_each xs body).
Proof.
  intros Hbody. induction xs as [|x xs IH]; simpl.
  - apply quiet_ret.
  - apply quiet_and_then; [apply Hbody | exact IH].
Qed.

Lemma quiet_migration_loop (E : Env) (item : ExplorationModel)
    (versioned : VersionedStates) (version : Z) :
  quiet (ExplorationMigrationAuditJob.migration_loop E item versioned
           version).
Proof.
  unfold quiet.
  destruct (migration_loop_fate E item _ versioned version eq_refl)
    as (tr & final & -> & Hfate).
  inversion Hfate; repeat constructor.
Qed.

Create HintDb quiet.
#[local] Hint Resolve quiet_ret quiet_raise quiet_lift quiet_yield
  quiet_log_error quiet_log_exception quiet_migration_loop : quiet.

(** Walks through a generator body: sequencing, [try], [for], and the
    case distinctions on what the collaborators returned. *)
Ltac quiet_steps :=
  repeat first
    [ progress auto with quiet
    | apply quiet_bind; [|intros]
    | apply quiet_and_then
    | apply quiet_try_except; [|intros]
    | apply quiet_for_each; intros
    | match goal with
      | |- quiet (match ?x with _ => _ end) => destruct x
      | |- quiet (let _ := _ in _) => cbv zeta
      end ].

(** C9 (as amended): apart from the deletion job, whose map step deletes
    the scanned record directly, no map step writes to the datastore,
    except that of the migration job, and every write of the migration job
    is a call of the versioned-write API, never a direct deletion. *)
Theorem map_writes_only_through_versioned_api (E : Env) (j : Job)
    (item : instance_of (entity_classes_to_map_over j)) (ev : Event) :
  j <> MathRichTextInfoModelDeletion ->
  In ev (trace (job_map E j item)) ->
  is_store_write ev = true ->
  j = Migration /\ is_versioned_write ev = true /\
  is_direct_delete ev = false.
Proof.
  intros Hj Hin Hw.
  assert (Hquiet : j <> Migration -> quiet (job_map E j item)).
  { intros Hm. destruct j; simpl in *; try congruence;
      match goal with
      | |- quiet (?m E item) => try unfold m
      end; quiet_steps. }
  destruct j; try (exfalso; clear Hj;
    assert (Hq : quiet (job_map E _ item)) by (apply Hquiet; discriminate);
    unfold quiet in Hq; rewrite List.Forall_forall in Hq;
    apply Hq in Hin; congruence).
  split; [reflexivity|]. simpl in *.
  unfold ExplorationMigrationJobManager.map in Hin.
  destruct (em_deleted item); [destruct Hin|].
  destruct (get_exploration_by_id E (em_id item)) as [old|e];
    [|destruct Hin].
  unfold and_then, bind, lift, emit in Hin; simpl in Hin.
  destruct (validate E old false).
  - destruct Hin as [<-|[]]. discriminate Hw.
  - destruct (em_states_schema_version item =?
              CURRENT_STATE_SCHEMA_VERSION E); simpl in Hin;
      [destruct Hin|].
    destruct (update_exploration_raises E _ _ _ _); simpl in Hin.
    + destruct Hin as [<-|[]]. split; reflexivity.
    + destruct Hin as [<-|[<-|[]]]; [split; reflexivity | discriminate Hw].
Qed.

Lemma map_writes_only_through_versioned_api_witness :
  exists ev,
    In ev (trace (job_map sample_env Migration (sample_item "e1" false 1))) /\
    is_versioned_write ev = true /\ is_direct_delete ev = false.
Proof.
  assert (Hnot : Migration <> MathRichTextInfoModelDeletion)
    by discriminate.
  exists (UpdateExploration "OppiaMigrationBot" "e1"
            [ {| ec_cmd := "migrate_states_schema_to_latest_version";
                 ec_from_version := "1"; ec_to_version := "3" |} ]
            "Update exploration states from schema version 1 to 3.").
  split; [left; reflexivity|].
  exact (proj2
    (map_writes_only_through_versioned_api sample_env Migration
       (sample_item "e1" false 1) _ Hnot (or_introl eq_refl) eq_refl)).
Defined.

(** C9 as stated fails: the deletion job is not a migration, yet its map
    step deletes the scanned record directly with [item.delete()]. *)
Lemma deletion_map_deletes_scanned_record :
  trace (job_map sample_env MathRichTextInfoModelDeletion
           {| mi_id := "m1"; mi_deleted := false |}) =
    [ModelDelete "m1"; Yield "model_deleted" (PInt 1)] /\
  is_direct_delete (ModelDelete "m1") = true /\
  is_versioned_write (ModelDelete "m1") = false.
Proof. repeat split. Qed.

(** ** Further properties of the jobs *)

(** *** Loops that only yield *)

Lemma len_pos_iff_nonempty {A} (xs : list A) :
  (len xs >? 0) = match xs with [] => false | _ :: _ => true end.
Proof. destruct xs; reflexivity. Qed.

Lemma emissions_yields_only (pairs : list (string * PyVal)) :
  emissions (yields_only pairs) = pairs.
Proof.
  unfold emissions, yields_only. simpl trace.
  induction pairs as [|[k v] pairs IH]; [reflexivity|].
  cbn. f_equal. exact IH.
Qed.

(** A [for] loop whose body yields at most one pair per element and never
    raises yields the selected pairs in order. *)
Lemma for_each_yields {A} (xs : list A) (body : A -> Run unit)
    (select : A -> option (string * PyVal)) :
  (forall x,
     body x = match select x with
              | Some p => yield_ (fst p) (snd p)
              | None => ret tt
              end) ->
  for_each xs body = yields_only (omap select xs).
Proof.
  intros Hbody. induction xs as [|x xs IH]; simpl; [reflexivity|].
  rewrite IH, Hbody. destruct (select x) as [[k v]|]; reflexivity.
Qed.

(** *** The SVG-filename job *)

Lemma collect_invalid_tags_omap (E : Env) (item : ExplorationModel)
    (states : list (string * State)) :
  forall acc,
    ExplorationMathSvgFilenameValidationOneOffJob.collect_invalid_tags
      E item states acc
    = (acc ++ omap (svg_state_info E item) states)%list.
Proof.
  induction states as [|[state_name state] states IH]; intros acc; simpl.
  - now rewrite app_nil_r.
  - rewrite IH, len_pos_iff_nonempty. unfold svg_state_info at 2. simpl.
    destruct (validate_svg_filenames_in_math_rich_text E _ _ _);
      [reflexivity|].
    now rewrite <- app_assoc.
Qed.

(** X1: for a loaded record the map step of the SVG-filename job yields
    one pair holding, in the order of the states, an entry for exactly the
    states whose error list is not empty; when no state has errors it yields
    nothing. *)
Theorem svg_map_reports_states_with_errors (E : Env)
    (item : ExplorationModel) (exploration : Exploration) :
  em_deleted item = false ->
  get_exploration_from_model E item = Ok exploration ->
  ExplorationMathSvgFilenameValidationOneOffJob.map E item =
  match omap (svg_state_info E item) (ex_states exploration) with
  | [] => ret tt
  | infos =>
      yield_ "Found invalid tags" (PTuple [PStr (em_id item); PList infos])
  end.
Proof.
  intros Hdel Hload.
  unfold ExplorationMathSvgFilenameValidationOneOffJob.map.
  rewrite Hdel, Hload. unfold bind, lift; simpl.
  rewrite collect_invalid_tags_omap, len_pos_iff_nonempty. simpl.
  destruct (omap (svg_state_info E item) (ex_states exploration));
    reflexivity.
Qed.

Lemma svg_map_reports_states_with_errors_witness :
  ExplorationMathSvgFilenameValidationOneOffJob.map faulty_env
    (sample_item "accents" false 1) =
  yield_ "Found invalid tags"
    (PTuple
       [ PStr "accents";
         PList
           [ PDict [ (PStr "state_name", PStr "Introduction");
                     (PStr "error_list", PList [PStr "missing.svg"]);
                     (PStr "no_of_invalid_tags", PInt 1) ];
             PDict [ (PStr "state_name", PStr accented_state_name);
                     (PStr "error_list", PList [PStr "missing.svg"]);
                     (PStr "no_of_invalid_tags", PInt 1) ];
             PDict [ (PStr "state_name", PStr "End");
                     (PStr "error_list", PList [PStr "missing.svg"]);
                     (PStr "no_of_invalid_tags", PInt 1) ] ] ]) /\
  ExplorationMathSvgFilenameValidationOneOffJob.map sample_env
    (sample_item "e1" false 1) = ret tt.
Proof.
  split.
  - exact (svg_map_reports_states_with_errors faulty_env
             (sample_item "accents" false 1) accented_exploration
             eq_refl eq_refl).
  - exact (svg_map_reports_states_with_errors sample_env
             (sample_item "e1" false 1) sample_exploration eq_refl eq_refl).
Defined.

(** *** The mock math migration and hints jobs *)

(** X2: for a loaded record with rights, the map step of the mock math
    migration job yields one pair for each state whose converted html has
    invalid math tags, in the order of the states and all under one key
    naming the exploration and its status; it yields nothing else and
    returns. *)
Theorem mock_math_map_yields_per_state (E : Env) (item : ExplorationModel)
    (exploration : Exploration) (rights : ActivityRights) :
  em_deleted item = false ->
  get_exploration_from_model E item = Ok exploration ->
  get_exploration_rights E (em_id item) true = Ok (Some rights) ->
  ExplorationMockMathMigrationOneOffJob.map E item =
    yields_only (omap (mock_state_pair E item (ar_status rights))
                      (ex_states exploration)) /\
  Forall (fun p => fst p =
            "exp_id: " +:+ em_id item +:+ ", exp_status: " +:+
            ar_status rights +:+ " failed validation after migration")
         (emissions (ExplorationMockMathMigrationOneOffJob.map E item)).
Proof.
  intros Hdel Hload Hrights.
  assert (Hmap :
    ExplorationMockMathMigrationOneOffJob.map E item =
    yields_only (omap (mock_state_pair E item (ar_status rights))
                      (ex_states exploration))).
  { unfold ExplorationMockMathMigrationOneOffJob.map.
    rewrite Hdel, Hload, Hrights. unfold bind, lift; simpl.
    rewrite (for_each_yields _ _ (mock_state_pair E item (ar_status rights))).
    - destruct (yields_only _); reflexivity.
    - intros [state_name state]. unfold mock_state_pair. simpl.
      rewrite len_pos_iff_nonempty.
      destruct (validate_math_tags_in_html_with_attribute_math_content E _);
        reflexivity. }
  split; [exact Hmap|].
  rewrite Hmap, emissions_yields_only. clear Hmap Hload.
  induction (ex_states exploration) as [|name_and_state states IH]; simpl;
    [constructor|].
  unfold mock_state_pair at 1.
  destruct (validate_math_tags_in_html_with_attribute_math_content E _);
    [exact IH|].
  constructor; [reflexivity | exact IH].
Qed.

Lemma mock_math_map_yields_per_state_witness :
  ExplorationMockMathMigrationOneOffJob.map faulty_env
    (sample_item "accents" false 1) =
  yields_only
    [ ("exp_id: accents, exp_status: public failed validation after migration",
       PDict [ (PStr "state_name", PStr "Introduction");
               (PStr "error_list", PList [PStr "bad math tag"]);
               (PStr "no_of_invalid_tags", PInt 1) ]);
      ("exp_id: accents, exp_status: public failed validation after migration",
       PDict [ (PStr "state_name", PStr accented_state_name);
               (PStr "error_list", PList [PStr "bad math tag"]);
               (PStr "no_of_invalid_tags", PInt 1) ]);
      ("exp_id: accents, exp_status: public failed validation after migration",
       PDict [ (PStr "state_name", PStr "End");
               (PStr "error_list", PList [PStr "bad math tag"]);
               (PStr "no_of_invalid_tags", PInt 1) ]) ].
Proof.
  exact (proj1 (mock_math_map_yields_per_state faulty_env
                  (sample_item "accents" false 1) accented_exploration
                  {| ar_status := "public";
                     ar_viewable_if_private := false |}
                  eq_refl eq_refl eq_refl)).
Defined.

Lemma for_each_yields_in {A} (xs : list A) (body : A -> Run unit)
    (select : A -> option (string * PyVal)) :
  (forall x, In x xs ->
     body x = match select x with
              | Some p => yield_ (fst p) (snd p)
              | None => ret tt
              end) ->
  for_each xs body = yields_only (omap select xs).
Proof.
  intros Hbody. induction xs as [|x xs IH]; simpl; [reflexivity|].
  rewrite IH by (intros y Hy; apply Hbody; now right).
  rewrite (Hbody x) by now left.
  destruct (select x) as [[k v]|]; reflexivity.
Qed.

Lemma for_each_app {A} (xs ys : list A) (body : A -> Run unit) :
  for_each (xs ++ ys) body = (for_each xs body ;; for_each ys body).
Proof.
  induction xs as [|x xs IH]; simpl.
  - destruct (for_each ys body); reflexivity.
  - rewrite IH. unfold and_then, bind.
    destruct (body x) as [tr [[]|e]]; simpl; [|reflexivity].
    destruct (for_each xs body) as [tr' [[]|e]]; simpl.
    + now rewrite app_assoc.
    + reflexivity.
Qed.

(** The body of the loop of the hints job on one state. *)
Lemma hints_body_ascii (item : ExplorationModel)
    (name_and_state : string * State) :
  st_hints (snd name_and_state) = [] \/
  is_ascii (fst name_and_state) = true ->
  (if len (st_hints (snd name_and_state)) >? 0
   then
     let* encoded_state_name := lift (format_bytes (fst name_and_state)) in
     yield_ (UNICODE (len (st_hints (snd name_and_state))))
            (PStr (em_id item +:+ " " +:+ encoded_state_name))
   else ret tt) =
  match hints_state_pair item name_and_state with
  | Some p => yield_ (fst p) (snd p)
  | None => ret tt
  end.
Proof.
  destruct name_and_state as [state_name state]. simpl.
  unfold hints_state_pair. simpl. rewrite len_pos_iff_nonempty.
  destruct (st_hints state) as [|hint hints]; [reflexivity|].
  intros [Hnone|Hascii]; [discriminate Hnone|].
  unfold format_bytes. rewrite Hascii. reflexivity.
Qed.

(** X3: for a loaded record the map step of the hints job yields one pair
    for each state that has at least one hint, keyed by the number of hints
    in decimal and holding the exploration id and the state name, and none
    for a state without hints, provided the names of the states with hints
    are ASCII; the number of pairs is then the number of states with hints.
    At the first state with hints whose name has a byte above 127 the
    formatting of the encoded name raises UnicodeDecodeError: the pairs of
    the states before it have been yielded, those after it are lost. *)
Theorem hints_map_yields_per_state_with_hints (E : Env)
    (item : ExplorationModel) (exploration : Exploration) :
  em_deleted item = false ->
  get_exploration_from_model E item = Ok exploration ->
  (Forall (fun name_and_state =>
             st_hints (snd name_and_state) = [] \/
             is_ascii (fst name_and_state) = true)
          (ex_states exploration) ->
   HintsAuditOneOffJob.map E item =
     yields_only (omap (hints_state_pair item) (ex_states exploration)) /\
   length (emissions (HintsAuditOneOffJob.map E item)) =
     length (List.filter
               (fun name_and_state =>
                  match st_hints (snd name_and_state) with
                  | [] => false
                  | _ :: _ => true
                  end)
               (ex_states exploration))) /\
  (forall before state_name state after,
     ex_states exploration = (before ++ (state_name, state) :: after)%list ->
     Forall (fun name_and_state =>
               st_hints (snd name_and_state) = [] \/
               is_ascii (fst name_and_state) = true)
            before ->
     st_hints state <> [] ->
     is_ascii state_name = false ->
     exists msg,
       HintsAuditOneOffJob.map E item =
         MkRun (trace (yields_only (omap (hints_state_pair item) before)))
               (Raise (UnicodeDecodeError msg))).
Proof.
  intros Hdel Hload. split.
  - intros Hascii.
    assert (Hmap :
      HintsAuditOneOffJob.map E item =
      yields_only (omap (hints_state_pair item) (ex_states exploration))).
    { unfold HintsAuditOneOffJob.map.
      rewrite Hdel, Hload. unfold bind at 1, lift at 1. simpl.
      rewrite (for_each_yields_in _ _ (hints_state_pair item)).
      - destruct (yields_only _); reflexivity.
      - intros name_and_state Hin. apply hints_body_ascii.
        rewrite List.Forall_forall in Hascii. now apply Hascii. }
    split; [exact Hmap|].
    rewrite Hmap, emissions_yields_only. clear.
    induction (ex_states exploration) as [|[state_name state] states IH];
      simpl; [reflexivity|].
    unfold hints_state_pair at 1. simpl.
    destruct (st_hints state); simpl; [exact IH | f_equal; exact IH].
  - intros before state_name state after Hstates Hascii Hhints Hname.
    unfold HintsAuditOneOffJob.map.
    rewrite Hdel, Hload. unfold bind at 1, lift at 1. simpl.
    rewrite Hstates, for_each_app.
    rewrite (for_each_yields_in before _ (hints_state_pair item)).
    + simpl for_each. rewrite len_pos_iff_nonempty.
      destruct (st_hints state) as [|hint hints]; [now destruct Hhints|].
      unfold format_bytes. rewrite Hname.
      eexists. unfold and_then, bind, lift, yields_only; simpl.
      rewrite !app_nil_r. reflexivity.
    + intros name_and_state Hin. apply hints_body_ascii.
      rewrite List.Forall_forall in Hascii. now apply Hascii.
Qed.

Lemma hints_map_yields_per_state_with_hints_witness :
  HintsAuditOneOffJob.map sample_env (sample_item "e1" false 1) =
    yields_only [("1", PStr "e1 Introduction")] /\
  exists msg,
    HintsAuditOneOffJob.map faulty_env (sample_item "accents" false 1) =
      MkRun [Yield "1" (PStr "accents Introduction")]
            (Raise (UnicodeDecodeError msg)).
Proof.
  split.
  - destruct (hints_map_yields_per_state_with_hints sample_env
                (sample_item "e1" false 1) sample_exploration
                eq_refl eq_refl) as [H _].
    apply H. constructor; [right; reflexivity | constructor].
  - destruct (hints_map_yields_per_state_with_hints faulty_env
                (sample_item "accents" false 1) accented_exploration
                eq_refl eq_refl) as [_ H].
    apply (H [("Introduction", sample_state)] accented_state_name
             sample_state [("End", sample_state)]).
    + reflexivity.
    + constructor; [right; reflexivity | constructor].
    + discriminate.
    + reflexivity.
Defined.

(** *** The map steps of the CKEditor and customization-args jobs *)

(** X4: for a record that loads, the map step of the CKEditor job yields
    one pair for each error category whose list is not empty, keyed by the
    category followed by ' Exp Id: ' and the exploration id, and no pair
    for a category with an empty list; so every yielded value is a
    non-empty list. *)
Theorem ckeditor_map_yields_nonempty_categories (E : Env)
    (item : ExplorationModel) (exploration : Exploration) :
  em_deleted item = false ->
  get_exploration_from_model E item = Ok exploration ->
  ExplorationContentValidationJobForCKEditor.map E item =
    yields_only
      (omap (ckeditor_category_pair item)
            (validate_rte_format E (ex_all_html_content_strings exploration)
               (RTE_FORMAT_CKEDITOR E))) /\
  Forall (fun p => exists category error error_list,
            p = (category +:+ " Exp Id: " +:+ em_id item,
                 PList (error :: error_list)))
         (emissions (ExplorationContentValidationJobForCKEditor.map E item)).
Proof.
  intros Hdel Hload.
  assert (Hmap :
    ExplorationContentValidationJobForCKEditor.map E item =
    yields_only
      (omap (ckeditor_category_pair item)
            (validate_rte_format E (ex_all_html_content_strings exploration)
               (RTE_FORMAT_CKEDITOR E)))).
  { unfold ExplorationContentValidationJobForCKEditor.map.
    rewrite Hdel, Hload.
    apply for_each_yields.
    intros [category error_list]. unfold ckeditor_category_pair. simpl.
    destruct error_list; reflexivity. }
  split; [exact Hmap|].
  rewrite Hmap, emissions_yields_only. clear Hmap Hload.
  induction (validate_rte_format E _ _) as [|[category error_list] rest IH];
    simpl; [constructor|].
  unfold ckeditor_category_pair at 1. simpl.
  destruct error_list as [|error error_list]; [exact IH|].
  constructor; [|exact IH]. exists category, error, error_list. reflexivity.
Qed.

Lemma ckeditor_map_yields_nonempty_categories_witness :
  ExplorationContentValidationJobForCKEditor.map sample_env
    (sample_item "e1" false 1) =
  yields_only [ ("invalidTags Exp Id: e1", PList [PStr "blink"]);
                ("strings Exp Id: e1", PList [PStr "<blink>hello</blink>"]) ].
Proof.
  exact (proj1 (ckeditor_map_yields_nonempty_categories sample_env
                  (sample_item "e1" false 1) sample_exploration
                  eq_refl eq_refl)).
Defined.

(** X5: for a record that loads, the map step of the customization-args
    job yields exactly one pair for every key of the error dict, also for
    a key whose list is empty, and each value is the error list followed
    by one more item, 'Exp ID: ' and the exploration id. *)
Theorem rte_map_appends_exp_id (E : Env) (item : ExplorationModel)
    (exploration : Exploration) :
  em_deleted item = false ->
  get_exploration_from_model E item = Ok exploration ->
  RTECustomizationArgsValidationOneOffJob.map E item =
    yields_only
      (List.map (rte_error_pair item)
         (validate_customization_args E
            (ex_all_html_content_strings exploration))) /\
  length (emissions (RTECustomizationArgsValidationOneOffJob.map E item)) =
    length (validate_customization_args E
              (ex_all_html_content_strings exploration)).
Proof.
  intros Hdel Hload.
  assert (Hmap :
    RTECustomizationArgsValidationOneOffJob.map E item =
    yields_only
      (List.map (rte_error_pair item)
         (validate_customization_args E
            (ex_all_html_content_strings exploration)))).
  { unfold RTECustomizationArgsValidationOneOffJob.map.
    rewrite Hdel, Hload.
    rewrite (for_each_yields _ _ (fun entry => Some (rte_error_pair item entry)))
      by (intros entry; reflexivity).
    reflexivity. }
  split; [exact Hmap|].
  now rewrite Hmap, emissions_yields_only, length_map.
Qed.

Lemma rte_map_appends_exp_id_witness :
  RTECustomizationArgsValidationOneOffJob.map faulty_env
    (sample_item "e1" false 1) =
  yields_only [ ("Invalid filepath",
                 PList [PStr "bad tag"; PStr "Exp ID: e1"]);
                ("Missing alt", PList [PStr "Exp ID: e1"]) ].
Proof.
  exact (proj1 (rte_map_appends_exp_id faulty_env
                  (sample_item "e1" false 1) sample_exploration
                  eq_refl eq_refl)).
Defined.

(** *** The viewable explorations job *)

(** X6: the map step of the viewable explorations job skips a record that
    has no rights object without raising; it yields a pair, the id with the
    title, exactly for a record whose rights are private and viewable if
    private, and never more than that one pair. *)
Theorem viewable_map_lists_private_viewable (E : Env)
    (item : ExplorationModel) :
  em_deleted item = false ->
  (get_exploration_rights E (em_id item) false = Ok None ->
   ViewableExplorationsAuditJob.map E item = ret tt) /\
  (forall rights,
     get_exploration_rights E (em_id item) false = Ok (Some rights) ->
     ar_status rights = ACTIVITY_STATUS_PRIVATE E ->
     ar_viewable_if_private rights = true ->
     ViewableExplorationsAuditJob.map E item =
       yield_ (em_id item) (PStr (em_title item))) /\
  (forall p,
     In p (emissions (ViewableExplorationsAuditJob.map E item)) ->
     emissions (ViewableExplorationsAuditJob.map E item) =
       [(em_id item, PStr (em_title item))] /\
     exists rights,
       get_exploration_rights E (em_id item) false = Ok (Some rights) /\
       ar_status rights = ACTIVITY_STATUS_PRIVATE E /\
       ar_viewable_if_private rights = true).
Proof.
  intros Hdel. unfold ViewableExplorationsAuditJob.map. rewrite Hdel.
  split; [|split].
  - intros ->. reflexivity.
  - intros rights -> Hstatus Hview. unfold bind, lift; simpl.
    rewrite Hstatus, String.eqb_refl, Hview. reflexivity.
  - intros p.
    destruct (get_exploration_rights E (em_id item) false)
      as [[rights|]|e]; unfold bind, lift; simpl; try (intros []).
    destruct (String.eqb (ar_status rights) (ACTIVITY_STATUS_PRIVATE E))
      eqn:Hstatus; simpl; [|intros []].
    destruct (ar_viewable_if_private rights) eqn:Hview; simpl; [|intros []].
    intros _. split; [reflexivity|].
    exists rights. apply String.eqb_eq in Hstatus. auto.
Qed.

Lemma viewable_map_lists_private_viewable_witness :
  ViewableExplorationsAuditJob.map faulty_env (sample_item "hidden" false 1)
  = yield_ "hidden" (PStr "A title").
Proof.
  destruct (viewable_map_lists_private_viewable faulty_env
              (sample_item "hidden" false 1) eq_refl) as (_ & H & _).
  exact (H {| ar_status := "private"; ar_viewable_if_private := true |}
           eq_refl eq_refl eq_refl).
Defined.

(** *** The first-published job *)

Lemma key_eqb_str (v : PyVal) (s : string) :
  key_eqb v (PStr s) = true -> v = PStr s.
Proof.
  destruct v; simpl; try discriminate.
  intros H. apply String.eqb_eq in H. now subst.
Qed.

Lemma assoc_get_missing (kv : list (string * PyVal)) (k : string) :
  (forall entry, In entry kv -> fst entry <> k) ->
  assoc_get kv k = Raise (KeyError k).
Proof.
  intros Hmissing. unfold assoc_get.
  destruct (List.find (fun p => String.eqb (fst p) k) kv) as [p|] eqn:Hfind;
    [|reflexivity].
  apply find_some in Hfind. destruct Hfind as [Hin Heq].
  apply String.eqb_eq in Heq. now apply Hmissing in Hin.
Qed.

(** X7: the map step of the first-published job yields a pair, the
    unversioned id with the creation time in milliseconds, exactly when the
    'status' entry of the snapshot content is the public status string, and
    then only that pair; a snapshot whose content has no 'status' key makes
    it raise KeyError without yielding. *)
Theorem first_published_map_public_only (E : Env)
    (item : ExplorationRightsSnapshotContentModel) :
  (assoc_get (rs_content item) "status"
     = Ok (PStr (ACTIVITY_STATUS_PUBLIC E)) ->
   ExplorationFirstPublishedOneOffJob.map E item =
     yield_ (rs_unversioned_instance_id item)
            (get_time_in_millisecs E (rs_created_on item))) /\
  (forall p,
     In p (emissions (ExplorationFirstPublishedOneOffJob.map E item)) ->
     assoc_get (rs_content item) "status"
       = Ok (PStr (ACTIVITY_STATUS_PUBLIC E)) /\
     emissions (ExplorationFirstPublishedOneOffJob.map E item) =
       [(rs_unversioned_instance_id item,
         get_time_in_millisecs E (rs_created_on item))]) /\
  ((forall entry, In entry (rs_content item) -> fst entry <> "status") ->
   ExplorationFirstPublishedOneOffJob.map E item
     = raise (KeyError "status")).
Proof.
  unfold ExplorationFirstPublishedOneOffJob.map. split; [|split].
  - intros ->. unfold bind, lift; simpl. rewrite String.eqb_refl.
    reflexivity.
  - intros p.
    destruct (assoc_get (rs_content item) "status") as [status|e];
      unfold bind, lift; simpl; [|intros []].
    destruct (key_eqb status (PStr (ACTIVITY_STATUS_PUBLIC E))) eqn:Hstatus;
      simpl; [|intros []].
    apply key_eqb_str in Hstatus. subst status. intros _.
    split; reflexivity.
  - intros Hmissing. rewrite (assoc_get_missing _ _ Hmissing). reflexivity.
Qed.

Lemma first_published_map_public_only_witness :
  ExplorationFirstPublishedOneOffJob.map sample_env
    {| rs_unversioned_instance_id := "e1"; rs_deleted := false;
       rs_content := [("title", PStr "t")]; rs_created_on := 1000 |}
  = raise (KeyError "status").
Proof.
  destruct (first_published_map_public_only sample_env
              {| rs_unversioned_instance_id := "e1"; rs_deleted := false;
                 rs_content := [("title", PStr "t")];
                 rs_created_on := 1000 |}) as (_ & _ & H).
  apply H. intros entry [<-|[]]. discriminate.
Defined.






(** *** The validity job *)

(** X9: in the validity job an exploration is validated non-strictly when
    its rights are private and strictly otherwise; when that validation
    passes nothing is yielded, whatever the other mode would say; an
    exception that is not a ValidationError is not caught and leaves the
    map step without a pair; and an exception of the rights lookup, which
    is made outside the [try], leaves the map step as well. *)
Theorem validity_map_outcomes (E : Env) (item : ExplorationModel)
    (exploration : Exploration) :
  em_deleted item = false ->
  get_exploration_from_model E item = Ok exploration ->
  (forall rights,
     get_exploration_rights E (em_id item) true = Ok (Some rights) ->
     validate E exploration
       (negb (String.eqb (ar_status rights) (ACTIVITY_STATUS_PRIVATE E)))
       = None ->
     ExplorationValidityJobManager.map E item = ret tt) /\
  (forall rights e,
     get_exploration_rights E (em_id item) true = Ok (Some rights) ->
     validate E exploration
       (negb (String.eqb (ar_status rights) (ACTIVITY_STATUS_PRIVATE E)))
       = Some e ->
     is_ValidationError e = false ->
     ExplorationValidityJobManager.map E item = raise e) /\
  (forall e,
     get_exploration_rights E (em_id item) true = Raise e ->
     ExplorationValidityJobManager.map E item = raise e).
Proof.
  intros Hdel Hload. unfold ExplorationValidityJobManager.map.
  rewrite Hdel, Hload. split; [|split].
  - intros rights -> Hval. unfold bind, lift, try_except; simpl.
    destruct (String.eqb (ar_status rights) (ACTIVITY_STATUS_PRIVATE E));
      simpl in Hval; rewrite Hval; reflexivity.
  - intros rights e -> Hval Hclass. unfold bind, lift, try_except; simpl.
    destruct (String.eqb (ar_status rights) (ACTIVITY_STATUS_PRIVATE E));
      simpl in Hval; rewrite Hval; simpl; rewrite Hclass; reflexivity.
  - intros e ->. reflexivity.
Qed.

Lemma validity_map_outcomes_witness :
  ExplorationValidityJobManager.map sample_env (sample_item "e1" false 1)
    = ret tt /\
  ExplorationValidityJobManager.map faulty_env (sample_item "e1" false 1)
    = raise (OtherException "unexpected failure") /\
  ExplorationValidityJobManager.map sample_env
    (sample_item "norights" false 1)
    = raise (OtherException "Entity not found").
Proof.
  split; [|split].
  - destruct (validity_map_outcomes sample_env (sample_item "e1" false 1)
                sample_exploration eq_refl eq_refl) as (H & _ & _).
    exact (H {| ar_status := "private"; ar_viewable_if_private := false |}
             eq_refl eq_refl).
  - destruct (validity_map_outcomes faulty_env (sample_item "e1" false 1)
                sample_exploration eq_refl eq_refl) as (_ & H & _).
    exact (H {| ar_status := "public"; ar_viewable_if_private := false |}
             (OtherException "unexpected failure") eq_refl eq_refl eq_refl).
  - destruct (validity_map_outcomes sample_env
                (sample_item "norights" false 1) sample_exploration
                eq_refl eq_refl) as (_ & _ & H).
    exact (H (OtherException "Entity not found") eq_refl).
Defined.

(** *** The migration audit job, step by step *)

Lemma first_failure_none_iff (E : Env) (exp_id : string) (n : nat) :
  forall versioned version,
    first_failure E exp_id n versioned version = None <->
    update_steps_succeed E exp_id n versioned version = true.
Proof.
  induction n as [|n IH]; intros versioned version; simpl; [tauto|].
  destruct (update_states_from_model E versioned version exp_id)
    as [updated [e|]]; [split; discriminate | apply IH].
Qed.

Lemma first_failure_range (E : Env) (exp_id : string) (n : nat) :
  forall versioned version failed e,
    first_failure E exp_id n versioned version = Some (failed, e) ->
    version <= failed < version + Z.of_nat n.
Proof.
  induction n as [|n IH]; intros versioned version failed e; simpl;
    [discriminate|].
  destruct (update_states_from_model E versioned version exp_id)
    as [updated [e'|]].
  - intros [= <- <-]. lia.
  - intros H. apply IH in H. lia.
Qed.

Lemma migration_loop_first_failure (E : Env) (item : ExplorationModel)
    (n : nat) :
  forall versioned version,
    n = Z.to_nat (CURRENT_STATE_SCHEMA_VERSION E - version) ->
    trace (ExplorationMigrationAuditJob.migration_loop E item versioned
             version) =
    match first_failure E (em_id item) n versioned version with
    | Some (failed, e) =>
        [ LogException
            (ExplorationMigrationAuditJob.error_message item failed e);
          Yield "MIGRATION_ERROR"
            (PStr (ExplorationMigrationAuditJob.error_message
                     item failed e)) ]
    | None =>
        if version <? CURRENT_STATE_SCHEMA_VERSION E
        then [Yield "SUCCESS" (PInt 1)]
        else []
    end.
Proof.
  induction n as [|n IH]; intros versioned version Hn.
  - rewrite migration_loop_done by lia. simpl.
    destruct (version <? CURRENT_STATE_SCHEMA_VERSION E) eqn:Hlt;
      [apply Z.ltb_lt in Hlt; lia | reflexivity].
  - rewrite migration_loop_step.
    destruct (Z_lt_dec version (CURRENT_STATE_SCHEMA_VERSION E)); [|lia].
    simpl first_failure.
    destruct (update_states_from_model E versioned version (em_id item))
      as [updated [e|]]; [reflexivity|].
    assert (Hlt : (version <? CURRENT_STATE_SCHEMA_VERSION E) = true)
      by now apply Z.ltb_lt.
    rewrite Hlt.
    destruct (version + 1 =? CURRENT_STATE_SCHEMA_VERSION E) eqn:Hlast.
    + apply Z.eqb_eq in Hlast.
      rewrite migration_loop_done by lia.
      assert (n = 0%nat) as -> by lia. reflexivity.
    + apply Z.eqb_neq in Hlast.
      unfold and_then. rewrite trace_bind. simpl.
      rewrite (IH updated (version + 1)) by lia.
      destruct (first_failure E (em_id item) n updated (version + 1))
        as [[failed e]|]; [reflexivity|].
      assert (Hnext : (version + 1 <? CURRENT_STATE_SCHEMA_VERSION E) = true)
        by (apply Z.ltb_lt; lia).
      now rewrite Hnext.
Qed.

Lemma audit_map_trace (E : Env) (item : ExplorationModel) :
  em_deleted item = false ->
  trace (ExplorationMigrationAuditJob.map E item) =
    match first_failure E (em_id item)
            (Z.to_nat (CURRENT_STATE_SCHEMA_VERSION E -
                       em_states_schema_version item))
            {| vs_states_schema_version := em_states_schema_version item;
               vs_states := em_states item |}
            (em_states_schema_version item) with
    | Some (failed, e) =>
        [ LogException
            (ExplorationMigrationAuditJob.error_message item failed e);
          Yield "MIGRATION_ERROR"
            (PStr (ExplorationMigrationAuditJob.error_message
                     item failed e)) ]
    | None =>
        if em_states_schema_version item <? CURRENT_STATE_SCHEMA_VERSION E
        then [Yield "SUCCESS" (PInt 1)]
        else []
    end.
Proof.
  intros Hdel.
  unfold ExplorationMigrationAuditJob.map. rewrite Hdel.
  rewrite trace_bind.
  destruct (migration_loop_fate E item _
              {| vs_states_schema_version := em_states_schema_version item;
                 vs_states := em_states item |}
              (em_states_schema_version item) eq_refl)
    as (tr & final & Heq & _).
  rewrite <- (migration_loop_first_failure E item _ _ _ eq_refl).
  rewrite Heq. simpl. now rewrite app_nil_r.
Qed.

(** X10: in the migration audit job the update steps run from the stored
    version upwards and stop at the first one that raises: the map step
    then logs and yields one MIGRATION_ERROR whose message names the
    version after the failing one, a version above the stored one and at
    most the current one, and later steps are not tried.  When no step
    raises it yields SUCCESS if the stored version was below the current
    one and nothing otherwise. *)
Theorem audit_map_stops_at_first_failure (E : Env)
    (item : ExplorationModel) :
  em_deleted item = false ->
  trace (ExplorationMigrationAuditJob.map E item) =
    match first_failure E (em_id item)
            (Z.to_nat (CURRENT_STATE_SCHEMA_VERSION E -
                       em_states_schema_version item))
            {| vs_states_schema_version := em_states_schema_version item;
               vs_states := em_states item |}
            (em_states_schema_version item) with
    | Some (failed, e) =>
        [ LogException
            (ExplorationMigrationAuditJob.error_message item failed e);
          Yield "MIGRATION_ERROR"
            (PStr (ExplorationMigrationAuditJob.error_message
                     item failed e)) ]
    | None =>
        if em_states_schema_version item <? CURRENT_STATE_SCHEMA_VERSION E
        then [Yield "SUCCESS" (PInt 1)]
        else []
    end /\
  (forall failed e,
     first_failure E (em_id item)
       (Z.to_nat (CURRENT_STATE_SCHEMA_VERSION E -
                  em_states_schema_version item))
       {| vs_states_schema_version := em_states_schema_version item;
          vs_states := em_states item |}
       (em_states_schema_version item) = Some (failed, e) ->
     em_states_schema_version item < failed + 1 <=
       CURRENT_STATE_SCHEMA_VERSION E).
Proof.
  intros Hdel. split.
  - exact (audit_map_trace E item Hdel).
  - intros failed e Hfail. apply first_failure_range in Hfail.
    destruct (Z_lt_dec (em_states_schema_version item)
                (CURRENT_STATE_SCHEMA_VERSION E)); lia.
Qed.

Lemma audit_map_stops_at_first_failure_witness :
  trace (ExplorationMigrationAuditJob.map faulty_env
           (sample_item "e1" false 1)) =
  [ LogException
      "Exploration e1 failed migration to states v3: conversion failed";
    Yield "MIGRATION_ERROR"
      (PStr "Exploration e1 failed migration to states v3: conversion failed") ].
Proof.
  exact (proj1 (audit_map_stops_at_first_failure faulty_env
                  (sample_item "e1" false 1) eq_refl)).
Defined.

(** X11: the map step of the migration audit job yields ('SUCCESS', 1)
    exactly when the stored version is below the current one and every
    update step returns. *)
Theorem audit_success_iff (E : Env) (item : ExplorationModel) :
  em_deleted item = false ->
  (emissions (ExplorationMigrationAuditJob.map E item)
     = [("SUCCESS", PInt 1)] <->
   em_states_schema_version item < CURRENT_STATE_SCHEMA_VERSION E /\
   migration_steps_succeed E item = true).
Proof.
  intros Hdel. unfold emissions.
  rewrite (audit_map_trace E item Hdel).
  unfold migration_steps_succeed.
  rewrite <- first_failure_none_iff.
  destruct (first_failure E (em_id item) _ _ _) as [[failed e]|]; simpl.
  - split; [discriminate | intros [_ H]; discriminate H].
  - destruct (em_states_schema_version item <?
              CURRENT_STATE_SCHEMA_VERSION E) eqn:Hlt; simpl.
    + apply Z.ltb_lt in Hlt. tauto.
    + apply Z.ltb_ge in Hlt. split; [discriminate | lia].
Qed.

Lemma audit_success_iff_witness :
  emissions (ExplorationMigrationAuditJob.map sample_env
               (sample_item "e1" false 2)) = [("SUCCESS", PInt 1)].
Proof.
  apply (audit_success_iff sample_env (sample_item "e1" false 2) eq_refl).
  split; reflexivity.
Defined.

(** *** The migration job, write and report *)

(** X12: for a record that is not deleted, the map step of the migration
    job calls [update_exploration] at most once, with the migration bot as
    committer and one change that names the stored and the current version
    in decimal; it yields ('SUCCESS', id) only after that call returned;
    and when the call raises, the exception leaves the map step and nothing
    is yielded. *)
Theorem migration_map_reports_after_write (E : Env)
    (item : ExplorationModel) :
  em_deleted item = false ->
  (store_writes (ExplorationMigrationJobManager.map E item) = [] \/
   store_writes (ExplorationMigrationJobManager.map E item)
     = [migration_write E item]) /\
  (forall p,
     In p (emissions (ExplorationMigrationJobManager.map E item)) ->
     ExplorationMigrationJobManager.map E item =
       MkRun [migration_write E item; Yield "SUCCESS" (PStr (em_id item))]
             (Ok tt) /\
     update_exploration_raises E (MIGRATION_BOT_USERNAME E) (em_id item)
       (migration_change_list E item)
       (ExplorationMigrationJobManager.commit_message E item) = None) /\
  (forall old_exploration e,
     get_exploration_by_id E (em_id item) = Ok old_exploration ->
     validate E old_exploration false = None ->
     em_states_schema_version item <> CURRENT_STATE_SCHEMA_VERSION E ->
     update_exploration_raises E (MIGRATION_BOT_USERNAME E) (em_id item)
       (migration_change_list E item)
       (ExplorationMigrationJobManager.commit_message E item) = Some e ->
     ExplorationMigrationJobManager.map E item =
       MkRun [migration_write E item] (Raise e)).
Proof.
  intros Hdel. unfold ExplorationMigrationJobManager.map. rewrite Hdel.
  fold (migration_change_list E item).
  split; [|split].
  - destruct (get_exploration_by_id E (em_id item)) as [old|e];
      [|left; reflexivity].
    unfold and_then, bind, lift, emit; simpl.
    destruct (validate E old false); [left; reflexivity|].
    destruct (em_states_schema_version item =?
              CURRENT_STATE_SCHEMA_VERSION E); simpl; [left; reflexivity|].
    destruct (update_exploration_raises E _ _ _ _); right; reflexivity.
  - intros p.
    destruct (get_exploration_by_id E (em_id item)) as [old|e];
      [|intros []].
    unfold and_then, bind, lift, emit; simpl.
    destruct (validate E old false); [intros []|].
    destruct (em_states_schema_version item =?
              CURRENT_STATE_SCHEMA_VERSION E); simpl; [intros []|].
    destruct (update_exploration_raises E _ _ _ _) eqn:Hraises;
      [intros [] | intros _; split; reflexivity].
  - intros old e -> Hval Hver Hraises.
    unfold and_then, bind, lift, emit; simpl. rewrite Hval.
    apply Z.eqb_neq in Hver. rewrite Hver. simpl. rewrite Hraises.
    reflexivity.
Qed.

Lemma migration_map_reports_after_write_witness :
  ExplorationMigrationJobManager.map faulty_env (sample_item "e1" false 1) =
  MkRun [migration_write faulty_env (sample_item "e1" false 1)]
        (Raise (OtherException "commit failed")).
Proof.
  destruct (migration_map_reports_after_write faulty_env
              (sample_item "e1" false 1) eq_refl) as (_ & _ & H).
  apply (H sample_exploration (OtherException "commit failed"));
    [reflexivity | reflexivity | discriminate | reflexivity].
Defined.

(** *** The batching loop of the math-info generation job *)

Lemma map_result_length {A B} (f : A -> Result B) (xs : list A)
    (ys : list B) :
  map_result f xs = Ok ys -> length ys = length xs.
Proof.
  revert ys. induction xs as [|x xs IH]; intros ys; simpl.
  - intros [= <-]. reflexivity.
  - destruct (f x); [|discriminate].
    destruct (map_result f xs); [|discriminate].
    intros [= <-]. simpl. f_equal. now apply IH.
Qed.

(** What the batching loop keeps, from any starting state. *)
Lemma batch_invariants (E : Env) (final_values : list PyVal) :
  forall b b',
    ExplorationMathRichTextInfoModelGenerationOneOffJob.batch
      E final_values b = Ok b' ->
    exists pairs lens,
      map_result unpack2 final_values = Ok pairs /\
      map_result (fun p => py_len (snd p)) pairs = Ok lens /\
      ExplorationMathRichTextInfoModelGenerationOneOffJob.exploration_math_rich_text_info_list b' =
        (ExplorationMathRichTextInfoModelGenerationOneOffJob.exploration_math_rich_text_info_list b
         ++ pairs)%list /\
      ExplorationMathRichTextInfoModelGenerationOneOffJob.estimated_no_of_batches b
        <= ExplorationMathRichTextInfoModelGenerationOneOffJob.estimated_no_of_batches b'
        <= ExplorationMathRichTextInfoModelGenerationOneOffJob.estimated_no_of_batches b
           + len final_values /\
      ExplorationMathRichTextInfoModelGenerationOneOffJob.total_number_of_svgs_required b' =
        ExplorationMathRichTextInfoModelGenerationOneOffJob.total_number_of_svgs_required b
        + sum_Z lens /\
      (String.length
         (ExplorationMathRichTextInfoModelGenerationOneOffJob.longest_raw_latex_string b)
       <= String.length
            (ExplorationMathRichTextInfoModelGenerationOneOffJob.longest_raw_latex_string b'))%nat /\
      Forall (fun p =>
                (String.length (get_longest_latex_expression E (fst p) (snd p))
                 <= String.length
                      (ExplorationMathRichTextInfoModelGenerationOneOffJob.longest_raw_latex_string b'))%nat)
             pairs.
Proof.
  induction final_values as [|final_value final_values IH]; intros b b';
    simpl.
  - intros [= <-]. exists [], []. rewrite app_nil_r. unfold len. simpl.
    repeat split; try lia. constructor.
  - destruct (unpack2 final_value) as [[exp_id latex]|e]; [|discriminate].
    destruct (py_len latex) as [n|e] eqn:Hlen; [|discriminate].
    intros Hbatch. apply IH in Hbatch.
    destruct Hbatch as (pairs & lens & Hpairs & Hlens & Hlist & Hbatches &
                        Htotal & Hlongest & Hall).
    simpl in *. rewrite Hpairs.
    exists ((exp_id, latex) :: pairs), (n :: lens). simpl.
    rewrite Hlen, Hlens.
    assert (Hmax : forall a c : string,
              (String.length c <=
               String.length
                 (ExplorationMathRichTextInfoModelGenerationOneOffJob.max_by_len a c))%nat /\
              (String.length a <=
               String.length
                 (ExplorationMathRichTextInfoModelGenerationOneOffJob.max_by_len a c))%nat).
    { intros a c.
      unfold ExplorationMathRichTextInfoModelGenerationOneOffJob.max_by_len.
      destruct (String.length a <? String.length c)%nat eqn:Hcmp.
      - apply Nat.ltb_lt in Hcmp. lia.
      - apply Nat.ltb_ge in Hcmp. lia. }
    destruct (Hmax (get_longest_latex_expression E exp_id latex)
                (ExplorationMathRichTextInfoModelGenerationOneOffJob.longest_raw_latex_string b))
      as [Hold Hnew].
    repeat split.
    + rewrite Hlist, <- app_assoc. reflexivity.
    + destruct (_ >? _); lia.
    + unfold len in *. simpl length. destruct (_ >? _); lia.
    + rewrite Htotal. lia.
    + lia.
    + constructor; [simpl; lia | exact Hall].
Qed.

(** X13: when the reduce step of the math-info generation job returns for
    its success key, it has saved exactly one math-info entry per value, in
    the order of the values, in a single call made before its one yield;
    the reported number of explorations is the number of values, the
    estimated number of batches lies between 1 and 1 plus that number, and
    the total number of SVGs is the sum of the lengths of the latex
    lists. *)
Theorem generation_reduce_saves_one_entry_per_value (E : Env)
    (values : list string) :
  outcome (ExplorationMathRichTextInfoModelGenerationOneOffJob.reduce E
             ExplorationMathRichTextInfoModelGenerationOneOffJob._SUCCESS_KEY
             values) = Ok tt ->
  exists final_values pairs lens batches longest,
    map_result (literal_eval E) values = Ok final_values /\
    map_result unpack2 final_values = Ok pairs /\
    map_result (fun p => py_len (snd p)) pairs = Ok lens /\
    length pairs = length values /\
    trace (ExplorationMathRichTextInfoModelGenerationOneOffJob.reduce E
             ExplorationMathRichTextInfoModelGenerationOneOffJob._SUCCESS_KEY
             values) =
      [ SaveMultiMathRichTextInfo pairs;
        Yield ExplorationMathRichTextInfoModelGenerationOneOffJob._SUCCESS_KEY
          (generation_report batches longest (len values) (sum_Z lens)) ] /\
    1 <= batches <= 1 + len values.
Proof.
  unfold ExplorationMathRichTextInfoModelGenerationOneOffJob.reduce.
  rewrite String.eqb_refl.
  destruct (map_result (literal_eval E) values) as [final_values|e]
    eqn:Hvalues; [|discriminate].
  unfold and_then, bind, lift, emit, yield_; simpl.
  destruct (ExplorationMathRichTextInfoModelGenerationOneOffJob.batch
              E final_values _) as [b|e] eqn:Hbatch; [|discriminate].
  intros _. simpl.
  destruct (batch_invariants E final_values _ _ Hbatch)
    as (pairs & lens & Hpairs & Hlens & Hlist & Hbatches & Htotal & _ & _).
  simpl in *.
  assert (Hlen : length final_values = length values)
    by exact (map_result_length _ _ _ Hvalues).
  exists final_values, pairs, lens,
    (ExplorationMathRichTextInfoModelGenerationOneOffJob.estimated_no_of_batches b),
    (ExplorationMathRichTextInfoModelGenerationOneOffJob.longest_raw_latex_string b).
  repeat split; try assumption.
  - rewrite (map_result_length _ _ _ Hpairs). exact Hlen.
  - rewrite Hlist, Htotal. unfold generation_report, len.
    rewrite Hlen. reflexivity.
  - lia.
  - unfold len in *. rewrite <- Hlen. lia.
Qed.

Lemma generation_reduce_saves_one_entry_per_value_witness :
  exists batches longest,
    trace (ExplorationMathRichTextInfoModelGenerationOneOffJob.reduce
             faulty_env "exploration-with-math-tags"
             ["('e1', ['x^2', 'y'])"; "('e2', ['z'])"]) =
    [ SaveMultiMathRichTextInfo
        [ (PStr "e1", PList [PStr "x^2"; PStr "y"]);
          (PStr "e2", PList [PStr "z"]) ];
      Yield "exploration-with-math-tags"
        (generation_report batches longest 2 3) ].
Proof.
  destruct (generation_reduce_saves_one_entry_per_value faulty_env
              ["('e1', ['x^2', 'y'])"; "('e2', ['z'])"] eq_refl)
    as (fv & pairs & lens & batches & longest &
        Hfv & Hpairs & Hlens & _ & Htrace & _).
  injection Hfv as <-. injection Hpairs as <-. injection Hlens as <-.
  exists batches, longest. exact Htrace.
Defined.





(** *** The reduce step of the SVG-filename job *)

Lemma add_values_of_infos (states : list (string * list PyVal)) :
  forall n kept,
    ExplorationMathSvgFilenameValidationOneOffJob.add_values
      (List.map
         (fun st =>
            ExplorationMathSvgFilenameValidationOneOffJob.invalid_tags_info_in_state
              (fst st) (snd st))
         states) n kept
    = Ok (n + sum_Z (List.map (fun st => len (snd st)) states),
          (kept ++ List.map svg_entry_without_count states)%list).
Proof.
  induction states as [|[state_name error_list] states IH]; intros n kept;
    simpl.
  - now rewrite Z.add_0_r, app_nil_r.
  - rewrite IH. unfold svg_entry_without_count at 2. simpl.
    rewrite <- app_assoc. simpl. f_equal. f_equal. lia.
Qed.

Lemma add_explorations_of_values
    (explorations : list (string * list (string * list PyVal))) :
  forall n detailed,
    ExplorationMathSvgFilenameValidationOneOffJob.add_explorations
      (List.map svg_value explorations) n detailed
    = Ok (n + svg_total explorations,
          fold_left
            (fun detailed exploration =>
               dict_set detailed (PStr (fst exploration))
                 (PList (List.map svg_entry_without_count
                           (snd exploration))))
            explorations detailed).
Proof.
  induction explorations as [|[exp_id states] explorations IH];
    intros n detailed; simpl.
  - unfold svg_total. simpl. now rewrite Z.add_0_r.
  - rewrite add_values_of_infos. simpl. rewrite IH.
    unfold svg_total. simpl. f_equal. f_equal. lia.
Qed.

(** X16: when the values handed to the reduce step of the SVG-filename job
    are the literals of what its map step yields, reduce reports the
    number of values as the number of explorations and, as the number of
    invalid tags, the sum of the lengths of all error lists; the detailed
    dict holds, under each exploration id, the state entries with their
    count removed. *)
Theorem svg_reduce_totals (E : Env) (key : string) (values : list string)
    (explorations : list (string * list (string * list PyVal))) :
  map_result (literal_eval E) values = Ok (List.map svg_value explorations) ->
  ExplorationMathSvgFilenameValidationOneOffJob.reduce E key values =
  yields_only
    [ ("Overall result.",
       PDict [ (PStr "no_of_explorations_with_no_svgs", PInt (len values));
               (PStr "no_of_invalid_tags", PInt (svg_total explorations)) ]);
      ("Detailed information on invalid tags. ",
       PDict (svg_detailed explorations)) ].
Proof.
  intros Hvalues.
  unfold ExplorationMathSvgFilenameValidationOneOffJob.reduce.
  rewrite Hvalues. unfold and_then, bind, lift, yield_, emit; simpl.
  rewrite add_explorations_of_values. simpl.
  apply map_result_length in Hvalues. rewrite length_map in Hvalues.
  unfold yields_only, len, svg_detailed. simpl.
  rewrite length_map, Hvalues. reflexivity.
Qed.

Lemma svg_reduce_totals_witness :
  ExplorationMathSvgFilenameValidationOneOffJob.reduce faulty_env
    "Found invalid tags"
    ["('e3', [{'state_name': 'Intro', 'error_list': ['missing.svg'], 'no_of_invalid_tags': 1}])"]
  = yields_only
      [ ("Overall result.",
         PDict [ (PStr "no_of_explorations_with_no_svgs", PInt 1);
                 (PStr "no_of_invalid_tags", PInt 1) ]);
        ("Detailed information on invalid tags. ",
         PDict [ (PStr "e3",
                  PList [ PDict [ (PStr "state_name", PStr "Intro");
                                  (PStr "error_list",
                                   PList [PStr "missing.svg"]) ] ]) ]) ].
Proof.
  exact (svg_reduce_totals faulty_env "Found invalid tags"
           ["('e3', [{'state_name': 'Intro', 'error_list': ['missing.svg'], 'no_of_invalid_tags': 1}])"]
           [("e3", [("Intro", [PStr "missing.svg"])])] eq_refl).
Defined.

(** *** The reduce step of the deletion job *)

Lemma sum_literals_ints (E : Env) (values : list string) (counts : list Z) :
  forall acc,
    map_result (literal_eval E) values = Ok (List.map PInt counts) ->
    ExplorationMathRichTextInfoModelDeletionOneOffJob.sum_literals
      E values acc = Ok (acc + sum_Z counts).
Proof.
  revert counts. induction values as [|v values IH]; intros counts acc;
    simpl.
  - destruct counts; [|discriminate]. intros _. simpl.
    now rewrite Z.add_0_r.
  - destruct (literal_eval E v) as [x|e]; [|discriminate].
    destruct (map_result (literal_eval E) values) as [xs|e] eqn:Hrest;
      [|discriminate].
    destruct counts as [|n counts]; [discriminate|].
    intros [= -> ->]. simpl. rewrite (IH counts) by reflexivity.
    f_equal. lia.
Qed.

Lemma sum_literals_raises (E : Env) (values : list string) (v : string) :
  forall acc,
    In v values ->
    (forall x, literal_eval E v = Ok x -> exists e, as_int x = Raise e) ->
    exists e,
      ExplorationMathRichTextInfoModelDeletionOneOffJob.sum_literals
        E values acc = Raise e.
Proof.
  induction values as [|v' values IH]; intros acc Hin Hbad; [destruct Hin|].
  simpl. destruct Hin as [->|Hin].
  - destruct (literal_eval E v) as [x|e]; [|eexists; reflexivity].
    destruct (Hbad x eq_refl) as [e ->]. eexists; reflexivity.
  - destruct (literal_eval E v') as [x|e]; [|eexists; reflexivity].
    destruct (as_int x); [|eexists; reflexivity].
    now apply IH.
Qed.

(** X17: the reduce step of the deletion job reports the sum of the
    integers that its values evaluate to (0 for no value); and if any value
    is no literal or evaluates to something that is not a number, it raises
    and yields nothing. *)
Theorem deletion_reduce_sums_or_raises (E : Env) (key : string)
    (values : list string) :
  (forall counts,
     map_result (literal_eval E) values = Ok (List.map PInt counts) ->
     ExplorationMathRichTextInfoModelDeletionOneOffJob.reduce E key values =
       yield_ key
         (ExplorationMathRichTextInfoModelDeletionOneOffJob.report
            (sum_Z counts))) /\
  (forall v,
     In v values ->
     (forall x, literal_eval E v = Ok x -> exists e, as_int x = Raise e) ->
     exists e,
       ExplorationMathRichTextInfoModelDeletionOneOffJob.reduce E key values
       = raise e).
Proof.
  unfold ExplorationMathRichTextInfoModelDeletionOneOffJob.reduce. split.
  - intros counts Hvalues.
    rewrite (sum_literals_ints E values counts 0 Hvalues). reflexivity.
  - intros v Hin Hbad.
    destruct (sum_literals_raises E values v 0 Hin Hbad) as [e ->].
    exists e. reflexivity.
Qed.

Lemma deletion_reduce_sums_or_raises_witness :
  ExplorationMathRichTextInfoModelDeletionOneOffJob.reduce faulty_env
    "model_deleted" ["2"; "3"]
  = yield_ "model_deleted"
      (PList [PStr "5 models successfully delelted."]) /\
  exists e,
    ExplorationMathRichTextInfoModelDeletionOneOffJob.reduce faulty_env
      "model_deleted" ["2"; "'three'"] = raise e.
Proof.
  split.
  - exact (proj1 (deletion_reduce_sums_or_raises faulty_env "model_deleted"
                    ["2"; "3"]) [2; 3] eq_refl).
  - apply (proj2 (deletion_reduce_sums_or_raises faulty_env "model_deleted"
                    ["2"; "'three'"]) "'three'").
    + right; left; reflexivity.
    + intros x [= <-]. eexists. reflexivity.
Defined.

(** *** Writes of the reduce steps *)

(** X18: among the reduce steps only those of the first-published job and
    of the math-info generation job write to the datastore; every other
    reduce step writes nothing, whatever its key and values. *)
Theorem reduce_writes_only_in_two_jobs (E : Env) (j : Job) (key : string)
    (values : list string) (ev : Event) :
  In ev (trace (job_reduce E j key values)) ->
  is_store_write ev = true ->
  (j = FirstPublished /\
   exists msec,
     ev = UpdateFirstPublishedMsec (ACTIVITY_TYPE_EXPLORATION E) key msec) \/
  (j = MathRichTextInfoModelGeneration /\
   exists infos, ev = SaveMultiMathRichTextInfo infos).
Proof.
  intros Hin Hw.
  assert (Hquiet :
    j <> FirstPublished -> j <> MathRichTextInfoModelGeneration ->
    quiet (job_reduce E j key values)).
  { intros H1 H2. destruct j; simpl; try congruence;
      match goal with
      | |- quiet (?r E key values) => unfold r
      end; quiet_steps. }
  destruct j;
    try (exfalso;
         assert (Hq : quiet (job_reduce E _ key values))
           by (apply Hquiet; discriminate);
         unfold quiet in Hq; rewrite List.Forall_forall in Hq;
         apply Hq in Hin; congruence).
  - left. split; [reflexivity|]. simpl in Hin.
    unfold ExplorationFirstPublishedOneOffJob.reduce in Hin.
    destruct (get_exploration_rights E key false) as [[rights|]|e];
      unfold bind, lift in Hin; simpl in Hin; try (destruct Hin).
    destruct (map_result (literal_eval E) values) as [times|e];
      simpl in Hin; [|destruct Hin].
    destruct (py_min E times) as [m|e]; simpl in Hin; [|destruct Hin].
    destruct Hin as [<-|[]]. exists m. reflexivity.
  - right. split; [reflexivity|]. simpl in Hin.
    unfold ExplorationMathRichTextInfoModelGenerationOneOffJob.reduce in Hin.
    destruct (String.eqb key _).
    + destruct (map_result (literal_eval E) values) as [final_values|e];
        [|destruct Hin].
      unfold and_then, bind, lift, emit, yield_ in Hin; simpl in Hin.
      destruct (ExplorationMathRichTextInfoModelGenerationOneOffJob.batch
                  E final_values _) as [b|e]; simpl in Hin; [|destruct Hin].
      destruct Hin as [<-|[<-|[]]]; [eexists; reflexivity | discriminate Hw].
    + destruct Hin as [<-|[]]. discriminate Hw.
Qed.

Lemma reduce_writes_only_in_two_jobs_witness :
  (FirstPublished = FirstPublished /\
   exists msec,
     UpdateFirstPublishedMsec "exploration" "e1" (PInt 1500000000000) =
     UpdateFirstPublishedMsec (ACTIVITY_TYPE_EXPLORATION sample_env) "e1"
       msec) \/
  (FirstPublished = MathRichTextInfoModelGeneration /\
   exists infos,
     UpdateFirstPublishedMsec "exploration" "e1" (PInt 1500000000000) =
     SaveMultiMathRichTextInfo infos).
Proof.
  exact (reduce_writes_only_in_two_jobs sample_env FirstPublished "e1"
           ["1500000000000"]
           (UpdateFirstPublishedMsec "exploration" "e1" (PInt 1500000000000))
           (or_introl eq_refl) eq_refl).
Defined.

(** *** Keys built by map and read by reduce *)

Lemma find_from_cons (needle : string) (c : Ascii.ascii) (s : string)
    (i : Z) :
  find_from needle (String c s) i =
  if String.prefix needle (String c s) then i
  else find_from needle s (i + 1).
Proof. reflexivity. Qed.

Lemma contains_cons (needle : string) (c : Ascii.ascii) (s : string) :
  contains needle (String c s) =
  String.prefix needle (String c s) || contains needle s.
Proof. reflexivity. Qed.

Lemma contains_append_r (needle a b : string) :
  contains needle b = true -> contains needle (a +:+ b) = true.
Proof.
  intros Hb. induction a as [|c a IH]; [exact Hb|].
  change (String c a +:+ b) with (String c (a +:+ b)).
  rewrite contains_cons, IH. apply orb_true_r.
Qed.

Lemma prefix_cons (a b : Ascii.ascii) (s1 s2 : string) :
  String.prefix (String a s1) (String b s2) =
  if Ascii.ascii_dec a b then String.prefix s1 s2 else false.
Proof. reflexivity. Qed.

(** No occurrence of 'Exp Id:' starts inside [category] when it is followed
    by ' Exp Id: ': the blank does not fit anywhere in the pattern. *)
Lemma prefix_exp_id_across (category rest : string) :
  String.prefix "Exp Id:" category = false ->
  String.prefix "Exp Id:" (category +:+ " Exp Id: " +:+ rest) = false.
Proof.
  intros H.
  do 7 (destruct category as [|c category]; [reflexivity|];
        change (String c category +:+ " Exp Id: " +:+ rest)
          with (String c (category +:+ " Exp Id: " +:+ rest));
        rewrite prefix_cons in H |- *;
        destruct (Ascii.ascii_dec _ c) as [<-|]; [|reflexivity]).
  destruct category; discriminate H.
Qed.

Lemma find_exp_id_after_category (category rest : string) :
  forall i,
    contains "Exp Id:" category = false ->
    find_from "Exp Id:" (category +:+ " Exp Id: " +:+ rest) i =
    i + Z.of_nat (String.length category) + 1.
Proof.
  induction category as [|c category IH]; intros i Hfree.
  - transitivity (i + 1); [reflexivity | simpl; lia].
  - rewrite contains_cons in Hfree. apply orb_false_iff in Hfree.
    destruct Hfree as [Hhere Hlater].
    change (String c category +:+ " Exp Id: " +:+ rest)
      with (String c (category +:+ " Exp Id: " +:+ rest)).
    rewrite find_from_cons.
    change (String c (category +:+ " Exp Id: " +:+ rest))
      with (String c category +:+ " Exp Id: " +:+ rest).
    rewrite (prefix_exp_id_across _ _ Hhere), IH by assumption.
    simpl String.length. lia.
Qed.

Lemma length_append (a b : string) :
  String.length (a +:+ b) = (String.length a + String.length b)%nat.
Proof. induction a as [|c a IH]; simpl; [reflexivity | now rewrite IH]. Qed.

Lemma substring_whole (s : string) :
  String.substring 0 (String.length s) s = s.
Proof. induction s as [|c s IH]; simpl; [reflexivity | now rewrite IH]. Qed.

Lemma substring_append_prefix (a b : string) :
  String.substring 0 (String.length a) (a +:+ b) = a.
Proof.
  induction a as [|c a IH]; simpl; [destruct b; reflexivity|].
  now rewrite IH.
Qed.

Lemma substring_append_skip (a b : string) (n : nat) :
  String.substring (String.length a) n (a +:+ b) = String.substring 0 n b.
Proof. induction a as [|c a IH]; simpl; [reflexivity | exact IH]. Qed.

Lemma append_assoc_string (a b c : string) :
  (a +:+ b) +:+ c = a +:+ (b +:+ c).
Proof.
  induction a as [|x a IH]; [reflexivity|].
  change (String x ((a +:+ b) +:+ c) = String x (a +:+ (b +:+ c))).
  now rewrite IH.
Qed.

Lemma slice_to_append (a b : string) :
  slice_to (a +:+ b) (Z.of_nat (String.length a)) = a.
Proof.
  unfold slice_to, slice_bound. rewrite length_append.
  assert (Hpos : (Z.of_nat (String.length a) <? 0) = false)
    by (apply Z.ltb_ge; lia).
  rewrite Hpos.
  replace (Z.to_nat (Z.min _ _)) with (String.length a) by lia.
  apply substring_append_prefix.
Qed.

Lemma slice_from_append (a b : string) :
  slice_from (a +:+ b) (Z.of_nat (String.length a)) = b.
Proof.
  unfold slice_from, slice_bound. rewrite length_append.
  assert (Hpos : (Z.of_nat (String.length a) <? 0) = false)
    by (apply Z.ltb_ge; lia).
  rewrite Hpos.
  replace (Z.to_nat (Z.min _ _)) with (String.length a) by lia.
  replace (String.length a + String.length b - String.length a)%nat
    with (String.length b) by lia.
  rewrite substring_append_skip. apply substring_whole.
Qed.

(** X19: the key that the map step of the CKEditor job builds from an
    error category and an exploration id is taken apart again by its reduce
    step: for a category that does not itself contain 'Exp Id:', reduce
    yields under the category alone and appends 'Exp Id: ' with the id to
    the united values. *)
Theorem ckeditor_reduce_splits_map_key (E : Env) (category exp_id : string)
    (values : list string) (final_values output_values : list PyVal) :
  contains "Exp Id:" category = false ->
  map_result (literal_eval E) values = Ok final_values ->
  set_union E final_values = Ok output_values ->
  ExplorationContentValidationJobForCKEditor.reduce E
    (category +:+ " Exp Id: " +:+ exp_id) values =
  yield_ category
    (PList (output_values ++ [PStr ("Exp Id: " +:+ exp_id)])).
Proof.
  intros Hfree Hvalues Hunion.
  unfold ExplorationContentValidationJobForCKEditor.reduce.
  rewrite Hvalues. unfold bind, lift; simpl. rewrite Hunion. simpl.
  unfold find. rewrite (find_exp_id_after_category _ _ 0 Hfree).
  assert (Hne : (0 + Z.of_nat (String.length category) + 1 =? -1) = false)
    by (apply Z.eqb_neq; lia).
  rewrite Hne.
  replace (0 + Z.of_nat (String.length category) + 1 - 1)
    with (Z.of_nat (String.length category)) by lia.
  rewrite slice_to_append.
  change (category +:+ " Exp Id: " +:+ exp_id)
    with (category +:+ (" " +:+ ("Exp Id: " +:+ exp_id))).
  rewrite <- append_assoc_string.
  replace (0 + Z.of_nat (String.length category) + 1)
    with (Z.of_nat (String.length (category +:+ " ")))
    by (rewrite length_append; simpl; lia).
  rewrite slice_from_append. reflexivity.
Qed.

Lemma ckeditor_reduce_splits_map_key_witness :
  ExplorationContentValidationJobForCKEditor.reduce faulty_env
    "invalidTags Exp Id: e1" ["['blink', 'marquee']"] =
  yield_ "invalidTags"
    (PList [PStr "blink"; PStr "marquee"; PStr "Exp Id: e1"]).
Proof.
  exact (ckeditor_reduce_splits_map_key faulty_env "invalidTags" "e1"
           ["['blink', 'marquee']"]
           [PList [PStr "blink"; PStr "marquee"]]
           [PStr "blink"; PStr "marquee"] eq_refl eq_refl eq_refl).
Defined.

(** *** The reduce step of the customization-args job *)

Lemma flatten_two_item_lists (errors : list (PyVal * PyVal)) :
  RTECustomizationArgsValidationOneOffJob.flatten
    (List.map (fun p => PList [fst p; snd p]) errors)
  = Ok (flat_map (fun p => [fst p; snd p]) errors).
Proof.
  induction errors as [|[err exp_id] errors IH]; simpl; [reflexivity|].
  now rewrite IH.
Qed.

Lemma pairs_of_two_item_lists (errors : list (PyVal * PyVal)) :
  Nat.even (length (flat_map (fun p => [fst p; snd p]) errors)) = true /\
  pairs_of (flat_map (fun p => [fst p; snd p]) errors)
  = List.map (fun p => PTuple [snd p; fst p]) errors.
Proof.
  induction errors as [|[err exp_id] errors [IHeven IHpairs]]; simpl;
    [split; reflexivity|].
  split; [exact IHeven | now rewrite IHpairs].
Qed.

(** The order of the model is antisymmetric: swapping the arguments
    swaps the answer. *)
Lemma lex_cmp_antisym (xs : list PyVal) :
  Forall (fun x => forall y,
            py_cmp y x = option_map CompOpp (py_cmp x y)) xs ->
  forall ys,
    lex_cmp py_cmp ys xs = option_map CompOpp (lex_cmp py_cmp xs ys).
Proof.
  induction 1 as [|x xs Hx _ IH]; intros [|y ys]; simpl; try reflexivity.
  rewrite Hx. destruct (py_cmp x y) as [[]|]; simpl; try reflexivity.
  apply IH.
Qed.

Lemma py_cmp_antisym (a : PyVal) :
  forall b, py_cmp b a = option_map CompOpp (py_cmp a b).
Proof.
  induction a as [|x|x|x|xs IH|xs IH|kv] using PyVal_items_ind;
    intros [|y|y|y|ys|ys|kv']; simpl; try reflexivity;
    try (now rewrite Z.compare_antisym).
  - now rewrite String.compare_antisym.
  - now apply lex_cmp_antisym.
  - now apply lex_cmp_antisym.
Qed.

Lemma py_cmp_gt_le (a b : PyVal) :
  py_cmp a b = Some Gt -> py_le b a.
Proof.
  intros H. left. now rewrite py_cmp_antisym, H.
Qed.

Lemma insert_sorted_permutation (x : PyVal) (sorted : list PyVal) :
  forall result,
    insert_sorted x sorted = Some result ->
    Permutation (x :: sorted) result.
Proof.
  induction sorted as [|y rest IH]; intros result; simpl.
  - intros [= <-]. apply Permutation_refl.
  - destruct (py_cmp x y) as [[]|]; try discriminate;
      try (intros [= <-]; apply Permutation_refl).
    destruct (insert_sorted x rest) as [rest'|]; [|discriminate].
    intros [= <-].
    apply perm_trans with (y :: x :: rest); [apply perm_swap|].
    apply perm_skip. now apply IH.
Qed.

Lemma insert_sorted_head (x y : PyVal) (rest : list PyVal) :
  forall result,
    insert_sorted x rest = Some result ->
    py_le y x -> HdRel py_le y rest -> HdRel py_le y result.
Proof.
  destruct rest as [|z rest]; intros result; simpl.
  - intros [= <-] Hyx _. now constructor.
  - destruct (py_cmp x z) as [[]|]; try discriminate;
      try (intros [= <-] Hyx _; now constructor).
    destruct (insert_sorted x rest); [|discriminate].
    intros [= <-] _ Hhd. inversion Hhd; subst. now constructor.
Qed.

Lemma insert_sorted_sorted (x : PyVal) (sorted : list PyVal) :
  forall result,
    Sorted py_le sorted ->
    insert_sorted x sorted = Some result ->
    Sorted py_le result.
Proof.
  induction sorted as [|y rest IH]; intros result Hsorted; simpl.
  - intros [= <-]. repeat constructor.
  - inversion Hsorted as [|? ? Hrest Hhd]; subst.
    destruct (py_cmp x y) as [[]|] eqn:Hcmp; try discriminate.
    + intros [= <-]. constructor; [assumption|].
      constructor. right. exact Hcmp.
    + intros [= <-]. constructor; [assumption|].
      constructor. left. exact Hcmp.
    + destruct (insert_sorted x rest) as [rest'|] eqn:Hins; [|discriminate].
      intros [= <-]. constructor; [now apply IH|].
      apply (insert_sorted_head x y rest rest' Hins);
        [now apply py_cmp_gt_le | assumption].
Qed.

Lemma python_sorted_sorts (xs : list PyVal) :
  forall sorted,
    python_sorted xs = Some sorted ->
    Permutation xs sorted /\ Sorted py_le sorted.
Proof.
  induction xs as [|x xs IH]; intros sorted; simpl.
  - intros [= <-]. split; constructor.
  - destruct (python_sorted xs) as [sorted'|]; [|discriminate].
    destruct (IH sorted' eq_refl) as [Hperm Hsorted].
    intros Hins. split.
    + apply perm_trans with (x :: sorted'); [now apply perm_skip|].
      now apply insert_sorted_permutation.
    + now apply (insert_sorted_sorted x sorted').
Qed.

(** X20: when every value handed to the reduce step of the
    customization-args job is a list of two items, an error and an
    exploration id (what its map step yields for a key with one error), and
    the key is not a loading error, reduce turns each of them into the
    tuple (exploration id, error) and yields, under the key, these tuples
    sorted: the same tuples, in ascending order (with an interpreter whose
    sort is Python's, for tuples that Python can order); no index is out of
    range. *)
Theorem rte_reduce_pairs_errors_with_ids (E : Env) (key : string)
    (values : list string) (errors : list (PyVal * PyVal))
    (sorted_values : list PyVal) :
  contains "loading exploration" key = false ->
  map_result (literal_eval E) values
    = Ok (List.map (fun p => PList [fst p; snd p]) errors) ->
  sorts_like_python E ->
  python_sorted (List.map (fun p => PTuple [snd p; fst p]) errors)
    = Some sorted_values ->
  RTECustomizationArgsValidationOneOffJob.reduce E key values =
    yield_ key (PList sorted_values) /\
  Permutation (List.map (fun p => PTuple [snd p; fst p]) errors)
              sorted_values /\
  Sorted py_le sorted_values.
Proof.
  intros Hkey Hvalues Hsort Hsorted.
  split; [|now apply python_sorted_sorts].
  unfold RTECustomizationArgsValidationOneOffJob.reduce.
  rewrite Hvalues. unfold bind at 1, lift at 1. simpl.
  rewrite flatten_two_item_lists. unfold bind at 1, lift at 1. simpl.
  rewrite Hkey, pairing_loop_result.
  destruct (pairs_of_two_item_lists errors) as [-> ->].
  unfold bind at 1, lift at 1. simpl.
  rewrite (Hsort _ _ Hsorted). reflexivity.
Qed.

Lemma sample_sorts_like_python : sorts_like_python faulty_env.
Proof.
  intros xs sorted H. simpl. unfold sample_sorted. now rewrite H.
Qed.

Lemma rte_reduce_pairs_errors_with_ids_witness :
  RTECustomizationArgsValidationOneOffJob.reduce faulty_env
    "Invalid filepath"
    ["['worse tag', 'Exp ID: e2']"; "['bad tag', 'Exp ID: e1']"] =
  yield_ "Invalid filepath"
    (PList [ PTuple [PStr "Exp ID: e1"; PStr "bad tag"];
             PTuple [PStr "Exp ID: e2"; PStr "worse tag"] ]).
Proof.
  exact (proj1
    (rte_reduce_pairs_errors_with_ids faulty_env "Invalid filepath"
       ["['worse tag', 'Exp ID: e2']"; "['bad tag', 'Exp ID: e1']"]
       [ (PStr "worse tag", PStr "Exp ID: e2");
         (PStr "bad tag", PStr "Exp ID: e1") ]
       [ PTuple [PStr "Exp ID: e1"; PStr "bad tag"];
         PTuple [PStr "Exp ID: e2"; PStr "worse tag"] ]
       eq_refl eq_refl sample_sorts_like_python eq_refl)).
Defined.

(** X21: the key under which the map step of the customization-args job
    reports a load exception always contains 'loading exploration',
    whatever the exception says; so for that key the reduce step yields the
    flattened values as they are, without pairing them, and cannot run out
    of range. *)
Theorem rte_reduce_passes_load_errors_through (E : Env) (e : Exn)
    (values : list string) (final_values flattened_values : list PyVal) :
  map_result (literal_eval E) values = Ok final_values ->
  RTECustomizationArgsValidationOneOffJob.flatten final_values
    = Ok flattened_values ->
  contains "loading exploration"
    ("Error " +:+ exn_str e +:+ " when loading exploration") = true /\
  RTECustomizationArgsValidationOneOffJob.reduce E
    ("Error " +:+ exn_str e +:+ " when loading exploration") values =
  yield_ ("Error " +:+ exn_str e +:+ " when loading exploration")
         (PList flattened_values).
Proof.
  intros Hvalues Hflat.
  assert (Hkey :
    contains "loading exploration"
      ("Error " +:+ exn_str e +:+ " when loading exploration") = true).
  { apply contains_append_r, contains_append_r. reflexivity. }
  split; [exact Hkey|].
  generalize dependent ("Error " +:+ exn_str e +:+ " when loading exploration").
  intros key Hkey.
  unfold RTECustomizationArgsValidationOneOffJob.reduce.
  rewrite Hvalues. unfold bind at 1, lift at 1. simpl.
  rewrite Hflat. unfold bind at 1, lift at 1. simpl.
  now rewrite Hkey.
Qed.

Lemma rte_reduce_passes_load_errors_through_witness :
  RTECustomizationArgsValidationOneOffJob.reduce faulty_env
    "Error corrupt model when loading exploration" ["['e1']"] =
  yield_ "Error corrupt model when loading exploration"
         (PList [PStr "e1"]).
Proof.
  exact (proj2 (rte_reduce_passes_load_errors_through faulty_env
                  (OtherException "corrupt model") ["['e1']"]
                  [PList [PStr "e1"]] [PStr "e1"] eq_refl eq_refl)).
Defined.

(** *** One batch is enough for small jobs *)

Lemma batch_stays_in_one_batch (E : Env) (final_values : list PyVal) :
  forall b b' pairs,
    ExplorationMathRichTextInfoModelGenerationOneOffJob.batch
      E final_values b = Ok b' ->
    map_result unpack2 final_values = Ok pairs ->
    Forall (fun size => 0 <= size) (svg_sizes E pairs) ->
    ExplorationMathRichTextInfoModelGenerationOneOffJob.approx_size_of_math_svgs_bytes_in_current_batch b
      + sum_Z (svg_sizes E pairs) <= MAX_SIZE_OF_MATH_SVGS_BATCH_BYTES E ->
    ExplorationMathRichTextInfoModelGenerationOneOffJob.estimated_no_of_batches b' =
    ExplorationMathRichTextInfoModelGenerationOneOffJob.estimated_no_of_batches b.
Proof.
  induction final_values as [|final_value final_values IH];
    intros b b' pairs; simpl.
  - intros [= <-] _ _ _. reflexivity.
  - destruct (unpack2 final_value) as [[exp_id latex]|e]; [|discriminate].
    destruct (py_len latex) as [n|e]; [|discriminate].
    destruct (map_result unpack2 final_values) as [rest|e] eqn:Hrest;
      [|discriminate].
    intros Hbatch [= <-] Hsizes Hfit. simpl in Hsizes, Hfit.
    inversion Hsizes as [|? ? Hsize Hsizes']; subst.
    assert (Hrest_nonneg : 0 <= sum_Z (svg_sizes E rest)).
    { clear -Hsizes'. induction Hsizes'; simpl; lia. }
    assert (Hnot_full :
      (ExplorationMathRichTextInfoModelGenerationOneOffJob.approx_size_of_math_svgs_bytes_in_current_batch b
       + get_svg_size_in_bytes E exp_id latex
       >? MAX_SIZE_OF_MATH_SVGS_BATCH_BYTES E) = false).
    { rewrite Z.gtb_ltb. apply Z.ltb_ge. lia. }
    rewrite Hnot_full in Hbatch.
    rewrite (IH _ _ rest Hbatch eq_refl Hsizes'); simpl; [reflexivity|lia].
Qed.

(** X22: when the approximate SVG sizes of the explorations are not
    negative and add up to at most the batch limit, the reduce step of the
    math-info generation job, if it returns, estimates one batch. *)
Theorem generation_reduce_single_batch (E : Env) (values : list string)
    (final_values : list PyVal) (pairs : list (PyVal * PyVal))
    (report : PyVal) :
  map_result (literal_eval E) values = Ok final_values ->
  map_result unpack2 final_values = Ok pairs ->
  Forall (fun size => 0 <= size) (svg_sizes E pairs) ->
  sum_Z (svg_sizes E pairs) <= MAX_SIZE_OF_MATH_SVGS_BATCH_BYTES E ->
  In (ExplorationMathRichTextInfoModelGenerationOneOffJob._SUCCESS_KEY,
      report)
     (emissions
        (ExplorationMathRichTextInfoModelGenerationOneOffJob.reduce E
           ExplorationMathRichTextInfoModelGenerationOneOffJob._SUCCESS_KEY
           values)) ->
  py_getitem report (PStr "estimated_no_of_batches") = Ok (PInt 1).
Proof.
  intros Hvalues Hpairs Hsizes Hfit.
  unfold ExplorationMathRichTextInfoModelGenerationOneOffJob.reduce.
  rewrite String.eqb_refl, Hvalues.
  unfold and_then, bind, lift, emit, yield_; simpl.
  destruct (ExplorationMathRichTextInfoModelGenerationOneOffJob.batch
              E final_values _) as [b|e] eqn:Hbatch; [|intros []].
  simpl. intros [[= <-]|[]].
  rewrite (batch_stays_in_one_batch E _ _ _ _ Hbatch Hpairs Hsizes);
    [reflexivity | simpl; lia].
Qed.

Lemma generation_reduce_single_batch_witness :
  py_getitem (generation_report 1 "" 1 0) (PStr "estimated_no_of_batches")
  = Ok (PInt 1).
Proof.
  apply (generation_reduce_single_batch sample_env ["('e1', [])"]
           [PTuple [PStr "e1"; PList []]] [(PStr "e1", PList [])]);
    [reflexivity | reflexivity | repeat constructor; discriminate
    | discriminate | left; reflexivity].
Defined.
